(** * nav_sim: the simulation core of [src/nav_sim_core.cpp]

    A shallow embedding of [NavSim] and of the parts of tf2's LinearMath
    that it calls.  C++ [double] is modelled by the real numbers [R]: every
    arithmetic operation is taken exact, [std::cos], [std::sin], [atan2]
    and [asin] are the mathematical functions.  Rounding, infinities and
    NaN are outside the model.

    Clock reads ([ros::Time::now()]) and the three draws of the normal
    distribution in [simTransferError] are inputs of a tick. *)

From Stdlib Require Import Reals Lra Lia List String RNsatz.
Import ListNotations.
Open Scope R_scope.

(** ** tf2 LinearMath, as called by the simulator *)

Module tf2.

Record Vector3 := mkVector3 { vx : R; vy : R; vz : R }.

Record Quaternion := mkQuaternion { qx : R; qy : R; qz : R; qw : R }.

Record Matrix3x3 := mkMatrix3x3
  { m_el0 : Vector3; m_el1 : Vector3; m_el2 : Vector3 }.

Record Transform := mkTransform { m_basis : Matrix3x3; m_origin : Vector3 }.

Definition dot (a b : Vector3) : R :=
  vx a * vx b + vy a * vy b + vz a * vz b.

Definition neg (a : Vector3) : Vector3 :=
  mkVector3 (- vx a) (- vy a) (- vz a).

(** [Quaternion::setRPY(roll, pitch, yaw)] *)
Definition setRPY (roll pitch yaw : R) : Quaternion :=
  let halfYaw := yaw * 0.5 in
  let halfPitch := pitch * 0.5 in
  let halfRoll := roll * 0.5 in
  let cosYaw := cos halfYaw in
  let sinYaw := sin halfYaw in
  let cosPitch := cos halfPitch in
  let sinPitch := sin halfPitch in
  let cosRoll := cos halfRoll in
  let sinRoll := sin halfRoll in
  mkQuaternion
    (sinRoll * cosPitch * cosYaw - cosRoll * sinPitch * sinYaw)
    (cosRoll * sinPitch * cosYaw + sinRoll * cosPitch * sinYaw)
    (cosRoll * cosPitch * sinYaw - sinRoll * sinPitch * cosYaw)
    (cosRoll * cosPitch * cosYaw + sinRoll * sinPitch * sinYaw).

Definition length2 (q : Quaternion) : R :=
  qx q * qx q + qy q * qy q + qz q * qz q + qw q * qw q.

(** [Matrix3x3::setRotation(q)], also the constructor [Matrix3x3(q)].
    tf2 asserts [d != 0]; at the all-zero quaternion the code divides by
    zero and every entry becomes NaN, which [R] cannot show ([2 / 0] is 0
    here).  That input is outside the model: no statement below draws a
    conclusion from the value of [setRotation] at [length2 q = 0]. *)
Definition setRotation (q : Quaternion) : Matrix3x3 :=
  let d := length2 q in
  let s := 2 / d in
  let xs := qx q * s in let ys := qy q * s in let zs := qz q * s in
  let wx := qw q * xs in let wy := qw q * ys in let wz := qw q * zs in
  let xx := qx q * xs in let xy := qx q * ys in let xz := qx q * zs in
  let yy := qy q * ys in let yz := qy q * zs in let zz := qz q * zs in
  mkMatrix3x3
    (mkVector3 (1 - (yy + zz)) (xy - wz) (xz + wy))
    (mkVector3 (xy + wz) (1 - (xx + zz)) (yz - wx))
    (mkVector3 (xz - wy) (yz + wx) (1 - (xx + yy))).

Definition transpose (m : Matrix3x3) : Matrix3x3 :=
  mkMatrix3x3
    (mkVector3 (vx (m_el0 m)) (vx (m_el1 m)) (vx (m_el2 m)))
    (mkVector3 (vy (m_el0 m)) (vy (m_el1 m)) (vy (m_el2 m)))
    (mkVector3 (vz (m_el0 m)) (vz (m_el1 m)) (vz (m_el2 m))).

(** [Matrix3x3 * Vector3] *)
Definition mul_vec (m : Matrix3x3) (v : Vector3) : Vector3 :=
  mkVector3 (dot (m_el0 m) v) (dot (m_el1 m) v) (dot (m_el2 m) v).

Definition tdotx (m : Matrix3x3) (v : Vector3) : R :=
  vx (m_el0 m) * vx v + vx (m_el1 m) * vy v + vx (m_el2 m) * vz v.
Definition tdoty (m : Matrix3x3) (v : Vector3) : R :=
  vy (m_el0 m) * vx v + vy (m_el1 m) * vy v + vy (m_el2 m) * vz v.
Definition tdotz (m : Matrix3x3) (v : Vector3) : R :=
  vz (m_el0 m) * vx v + vz (m_el1 m) * vy v + vz (m_el2 m) * vz v.

(** [Matrix3x3 * Matrix3x3] *)
Definition mul_mat (m1 m2 : Matrix3x3) : Matrix3x3 :=
  mkMatrix3x3
    (mkVector3 (tdotx m2 (m_el0 m1)) (tdoty m2 (m_el0 m1)) (tdotz m2 (m_el0 m1)))
    (mkVector3 (tdotx m2 (m_el1 m1)) (tdoty m2 (m_el1 m1)) (tdotz m2 (m_el1 m1)))
    (mkVector3 (tdotx m2 (m_el2 m1)) (tdoty m2 (m_el2 m1)) (tdotz m2 (m_el2 m1))).

(** [Transform::operator()(x)] *)
Definition apply (t : Transform) (x : Vector3) : Vector3 :=
  mkVector3 (dot (m_el0 (m_basis t)) x + vx (m_origin t))
            (dot (m_el1 (m_basis t)) x + vy (m_origin t))
            (dot (m_el2 (m_basis t)) x + vz (m_origin t)).

(** [Transform::inverse()] *)
Definition inverse (t : Transform) : Transform :=
  let inv := transpose (m_basis t) in
  mkTransform inv (mul_vec inv (neg (m_origin t))).

(** [Transform::operator*] *)
Definition mul (t1 t2 : Transform) : Transform :=
  mkTransform (mul_mat (m_basis t1) (m_basis t2)) (apply t1 (m_origin t2)).

(** [tf2Atan2(y, x)], the two-argument arctangent with values in (-PI, PI] *)
Definition tf2Atan2 (y x : R) : R :=
  if Rlt_dec 0 x then atan (y / x)
  else if Rlt_dec x 0 then
    if Rle_dec 0 y then atan (y / x) + PI else atan (y / x) - PI
  else if Rlt_dec 0 y then PI / 2
  else if Rlt_dec y 0 then - (PI / 2)
  else 0.

Record Euler := mkEuler { e_yaw : R; e_pitch : R; e_roll : R }.

(** [Matrix3x3::getEulerYPR] with [solution_number = 1] *)
Definition getEulerYPR (m : Matrix3x3) : Euler :=
  if Rle_dec 1 (Rabs (vx (m_el2 m))) then
    let delta := tf2Atan2 (vy (m_el2 m)) (vz (m_el2 m)) in
    if Rlt_dec (vx (m_el2 m)) 0
    then mkEuler 0 (PI / 2) delta
    else mkEuler 0 (- PI / 2) delta
  else
    let pitch := - asin (vx (m_el2 m)) in
    mkEuler
      (tf2Atan2 (vx (m_el1 m) / cos pitch) (vx (m_el0 m) / cos pitch))
      pitch
      (tf2Atan2 (vy (m_el2 m) / cos pitch) (vz (m_el2 m) / cos pitch)).

(** [Matrix3x3::getRPY(roll, pitch, yaw)]: the three outputs as a triple *)
Definition getRPY (m : Matrix3x3) : R * R * R :=
  let e := getEulerYPR m in (e_roll e, e_pitch e, e_yaw e).

End tf2.

(** ** Messages *)

Record Point := mkPoint { p_x : R; p_y : R; p_z : R }.

Record QuaternionMsg := mkQuaternionMsg
  { o_x : R; o_y : R; o_z : R; o_w : R }.

Record Pose := mkPose { position : Point; orientation : QuaternionMsg }.

Record Header := mkHeader { stamp : R; frame_id : string }.

Record PoseStamped := mkPoseStamped { header : Header; pose : Pose }.

(** [geometry_msgs::PoseWithCovarianceStamped]; the covariance is never read *)
Record PoseWithCovarianceStamped := mkPoseWithCovarianceStamped
  { pwc_header : Header; pwc_pose : Pose; pwc_covariance : list R }.

Record Twist := mkTwist { linear : tf2.Vector3; angular : tf2.Vector3 }.

Record Path := mkPath { path_header : Header; poses : list PoseStamped }.

Record TransformStamped := mkTransformStamped
  { ts_header : Header; child_frame_id : string;
    translation : Point; rotation : QuaternionMsg }.

(** A default-constructed message has every number 0 and every string empty. *)
Definition Header0 : Header := mkHeader 0 EmptyString.
Definition PoseStamped0 : PoseStamped :=
  mkPoseStamped Header0 (mkPose (mkPoint 0 0 0) (mkQuaternionMsg 0 0 0 0)).
Definition Path0 : Path := mkPath Header0 [].

(** ** State and Landmark

    Both are declared in [nav_sim/nav_sim.h].  [convertToPose] is a template
    over them and reads [x_], [y_] and [yaw_] of either, so [Landmark] has a
    [yaw_] member too; [parseYaml] never assigns it. *)

Module State.
Record t := mk { x_ : R; y_ : R; yaw_ : R }.
End State.

Module Landmark.
Record t := mk { landmark_id_ : string; x_ : R; y_ : R; yaw_ : R }.
End Landmark.

Class PoseType (T : Type) := { get_x : T -> R; get_y : T -> R; get_yaw : T -> R }.

#[export] Instance State_PoseType : PoseType State.t :=
  {| get_x := State.x_; get_y := State.y_; get_yaw := State.yaw_ |}.

#[export] Instance Landmark_PoseType : PoseType Landmark.t :=
  {| get_x := Landmark.x_; get_y := Landmark.y_; get_yaw := Landmark.yaw_ |}.

(** ** The simulator object *)

Record NavSim := mkNavSim
  { error_coeff_ : R;
    config_ : string;
    landmark_pose_list_ : list Landmark.t;
    state_ : State.t;
    v_ : R;
    w_ : R;
    cmd_vel_ : Twist;
    current_pose_ : PoseStamped;
    previous_time_ : R }.

Definition set_state_ (s : State.t) (n : NavSim) : NavSim :=
  mkNavSim (error_coeff_ n) (config_ n) (landmark_pose_list_ n) s
           (v_ n) (w_ n) (cmd_vel_ n) (current_pose_ n) (previous_time_ n).

Definition set_velocity (v w : R) (n : NavSim) : NavSim :=
  mkNavSim (error_coeff_ n) (config_ n) (landmark_pose_list_ n) (state_ n)
           v w (cmd_vel_ n) (current_pose_ n) (previous_time_ n).

Definition set_current_pose_ (p : PoseStamped) (n : NavSim) : NavSim :=
  mkNavSim (error_coeff_ n) (config_ n) (landmark_pose_list_ n) (state_ n)
           (v_ n) (w_ n) (cmd_vel_ n) p (previous_time_ n).

Definition set_previous_time_ (t : R) (n : NavSim) : NavSim :=
  mkNavSim (error_coeff_ n) (config_ n) (landmark_pose_list_ n) (state_ n)
           (v_ n) (w_ n) (cmd_vel_ n) (current_pose_ n) t.

(** What a callback sends out, in the order it sends it. *)
Inductive Output :=
| SendTransform (t : TransformStamped)
| PublishPath (p : Path)
| PublishCurrentPose (p : PoseStamped).

(** ** Member functions of [NavSim] *)

(** [NavSim::planVelocity]: the pair [(target_v, target_w)]. *)
Definition planVelocity (n : NavSim) : R * R :=
  (1.0 * (tf2.vx (linear (cmd_vel_ n)) - v_ n),
   1.0 * (tf2.vz (angular (cmd_vel_ n)) - w_ n)).

(** [NavSim::convertToPose<PoseType>] *)
Definition convertToPose {T : Type} `{PoseType T} (state : T) : PoseStamped :=
  let quat := tf2.setRPY 0.0 0.0 (get_yaw state) in
  mkPoseStamped Header0
    (mkPose (mkPoint (get_x state) (get_y state) 0.0)
            (mkQuaternionMsg (tf2.qx quat) (tf2.qy quat) (tf2.qz quat)
                             (tf2.qw quat))).

(** [NavSim::convertToTransform] *)
Definition convertToTransform (p : PoseStamped) : tf2.Transform :=
  tf2.mkTransform
    (tf2.setRotation
       (tf2.mkQuaternion (o_x (orientation (pose p))) (o_y (orientation (pose p)))
                         (o_z (orientation (pose p))) (o_w (orientation (pose p)))))
    (tf2.mkVector3 (p_x (position (pose p))) (p_y (position (pose p)))
                   (p_z (position (pose p)))).

(** [NavSim::simTransferError(State & state)]: [dist] holds the three draws
    of [dist(engine)], in the order they are made. *)
Definition simTransferError (n : NavSim) (dist : R * R * R) (state : State.t)
  : State.t :=
  let s1 := State.mk (State.x_ state + error_coeff_ n * fst (fst dist))
                     (State.y_ state) (State.yaw_ state) in
  let s2 := State.mk (State.x_ s1)
                     (State.y_ s1 + error_coeff_ n * snd (fst dist))
                     (State.yaw_ s1) in
  State.mk (State.x_ s2) (State.y_ s2)
           (State.yaw_ s2 + error_coeff_ n * snd dist).

(** [simTransferError(state_)], the call of the tick, on the whole object. *)
Definition call_simTransferError (dist : R * R * R) (n : NavSim) : NavSim :=
  set_state_ (simTransferError n dist (state_ n)) n.

(** [NavSim::publishPoseToTransform]; [now] is its clock read. *)
Definition publishPoseToTransform (p : PoseStamped) (frame : string) (now : R)
  : Output :=
  SendTransform
    (mkTransformStamped (mkHeader now "map") frame
       (mkPoint (p_x (position (pose p))) (p_y (position (pose p)))
                (p_z (position (pose p))))
       (mkQuaternionMsg (o_x (orientation (pose p))) (o_y (orientation (pose p)))
                        (o_z (orientation (pose p))) (o_w (orientation (pose p))))).

(** Lines 44-46 of [timerCallback], one assignment after the other:
    [yaw_] is written first and the two position updates read it back. *)
Definition integrateState (state : State.t) (v w sampling_time : R) : State.t :=
  let s1 := State.mk (State.x_ state) (State.y_ state)
                     (State.yaw_ state + w * sampling_time) in
  let s2 := State.mk (State.x_ s1 + v * cos (State.yaw_ s1) * sampling_time)
                     (State.y_ s1) (State.yaw_ s1) in
  State.mk (State.x_ s2)
           (State.y_ s2 + v * sin (State.yaw_ s2) * sampling_time)
           (State.yaw_ s2).

(** What a tick reads from outside: the clock at entry, the three normal
    draws, the clock when the pose is stamped, and the clock of the k-th
    transform broadcast. *)
Record TimerEvent := mkTimerEvent
  { now_enter : R;
    dist : R * R * R;
    now_stamp : R;
    now_tf : nat -> R }.

Definition set_position_xy (x y : R) (p : PoseStamped) : PoseStamped :=
  mkPoseStamped (header p)
    (mkPose (mkPoint x y (p_z (position (pose p)))) (orientation (pose p))).

(** [base_to_landmark] of the loop body *)
Definition base_to_landmark (current_pose : PoseStamped) (landmark : Landmark.t)
  : tf2.Transform :=
  let landmark_pose := convertToPose landmark in
  let map_to_base := convertToTransform current_pose in
  let map_to_landmark := convertToTransform landmark_pose in
  tf2.mul (tf2.inverse map_to_base) map_to_landmark.

(** The variables the landmark loop updates: [path], [path_pose] (declared
    before the loop, so it lives across iterations) and what was sent. *)
Record LoopVars := mkLoopVars
  { path : Path; path_pose : PoseStamped; sent : list Output }.

(** One iteration of [for (auto landmark : landmark_pose_list_)]. *)
Definition landmark_iter (current_pose : PoseStamped) (e : TimerEvent)
           (a : LoopVars) (landmark : Landmark.t) : LoopVars :=
  let landmark_pose := convertToPose landmark in
  let b2l := base_to_landmark current_pose landmark in
  let path_pose1 := set_position_xy 0.0 0.0 (path_pose a) in
  let poses1 := poses (path a) ++ [path_pose1] in
  let path_pose2 :=
    set_position_xy (tf2.vx (tf2.m_origin b2l)) (tf2.vy (tf2.m_origin b2l))
                    path_pose1 in
  let poses2 := poses1 ++ [path_pose2] in
  mkLoopVars
    (mkPath (mkHeader (stamp (header current_pose))
                      (frame_id (header current_pose))) poses2)
    path_pose2
    (sent a ++ [publishPoseToTransform landmark_pose
                  (Landmark.landmark_id_ landmark)
                  (now_tf e (List.length (sent a)))]).

(** [NavSim::timerCallback]: the object after the tick and what it sent. *)
Definition timerCallback (e : TimerEvent) (n : NavSim) : NavSim * list Output :=
  let current_time := now_enter e in
  let sampling_time := current_time - previous_time_ n in
  let plan_v := fst (planVelocity n) in
  let plan_w := snd (planVelocity n) in
  let n1 := set_state_ (integrateState (state_ n) (v_ n) (w_ n) sampling_time) n in
  let n2 := call_simTransferError (dist e) n1 in
  let pose0 := convertToPose (state_ n2) in
  let n3 := set_current_pose_
              (mkPoseStamped (mkHeader (now_stamp e) "base_link") (pose pose0)) n2 in
  let sent0 := [publishPoseToTransform (current_pose_ n3)
                  (frame_id (header (current_pose_ n3))) (now_tf e 0)] in
  let n4 := set_velocity (v_ n3 + plan_v * sampling_time)
                         (w_ n3 + plan_w * sampling_time) n3 in
  let a := fold_left (landmark_iter (current_pose_ n4) e)
                     (landmark_pose_list_ n4)
                     (mkLoopVars Path0 PoseStamped0 sent0) in
  (set_previous_time_ current_time n4,
   sent a ++ [PublishPath (path a); PublishCurrentPose (current_pose_ n4)]).

(** The yaw that [callbackInitialpose] reads out of the message. *)
Definition initialpose_yaw (msg : PoseWithCovarianceStamped) : R :=
  let quat := tf2.mkQuaternion
                (o_x (orientation (pwc_pose msg))) (o_y (orientation (pwc_pose msg)))
                (o_z (orientation (pwc_pose msg))) (o_w (orientation (pwc_pose msg))) in
  let mat := tf2.setRotation quat in
  snd (tf2.getRPY mat).

(** The three assignments to [state_] in [callbackInitialpose]. *)
Definition initialpose_set_x (msg : PoseWithCovarianceStamped) (n : NavSim)
  : NavSim :=
  set_state_ (State.mk (p_x (position (pwc_pose msg)))
                       (State.y_ (state_ n)) (State.yaw_ (state_ n))) n.

Definition initialpose_set_y (msg : PoseWithCovarianceStamped) (n : NavSim)
  : NavSim :=
  set_state_ (State.mk (State.x_ (state_ n))
                       (p_y (position (pwc_pose msg)))
                       (State.yaw_ (state_ n))) n.

Definition initialpose_set_yaw (msg : PoseWithCovarianceStamped) (n : NavSim)
  : NavSim :=
  set_state_ (State.mk (State.x_ (state_ n)) (State.y_ (state_ n))
                       (initialpose_yaw msg)) n.

(** [NavSim::callbackInitialpose] run on its own: the lock changes nothing. *)
Definition callbackInitialpose (msg : PoseWithCovarianceStamped) (n : NavSim)
  : NavSim :=
  initialpose_set_yaw msg (initialpose_set_y msg (initialpose_set_x msg n)).

(** Repeated ticks, one per timer event, with nothing in between. *)
Definition ticks (es : list TimerEvent) (n : NavSim) : NavSim :=
  fold_left (fun n e => fst (timerCallback e n)) es n.

(** Every event of [es] comes [dt] after the one before, the first one [dt]
    after [t]. *)
Fixpoint fixed_period (dt t : R) (es : list TimerEvent) : Prop :=
  match es with
  | [] => True
  | e :: es' => now_enter e - t = dt /\ fixed_period dt (now_enter e) es'
  end.

(** ** Callbacks on several threads

    Each callback is a list of steps on the shared object.  [LockGuard] is
    [std::lock_guard<std::mutex> lock(m_)], [Unlock] the end of its scope,
    [Shared f] a step that reads and writes members.  [timerCallback] takes
    no lock; it is kept as one indivisible step, which gives the other
    threads fewer places to interleave than the real code does. *)

Inductive Instr :=
| LockGuard
| Unlock
| Shared (f : NavSim -> NavSim * list Output).

Definition callbackInitialpose_thread (msg : PoseWithCovarianceStamped)
  : list Instr :=
  [ LockGuard;
    Shared (fun n => (initialpose_set_x msg n, []));
    Shared (fun n => (initialpose_set_y msg n, []));
    Shared (fun n => (initialpose_set_yaw msg n, []));
    Unlock ].

Definition timerCallback_thread (e : TimerEvent) : list Instr :=
  [ Shared (timerCallback e) ].

Record Machine := mkMachine
  { obj : NavSim;
    m_ : option nat;
    threads : list (list Instr);
    sent_log : list Output }.

Fixpoint set_thread (i : nat) (t : list Instr) (ts : list (list Instr))
  : list (list Instr) :=
  match ts, i with
  | [], _ => []
  | _ :: ts', O => t :: ts'
  | t0 :: ts', S i' => t0 :: set_thread i' t ts'
  end.

(** Thread [i] takes its next step; [None] when it has none left or waits
    for the mutex. *)
Definition step_thread (i : nat) (c : Machine) : option Machine :=
  match nth_error (threads c) i with
  | Some (LockGuard :: rest) =>
      match m_ c with
      | None => Some (mkMachine (obj c) (Some i)
                                (set_thread i rest (threads c)) (sent_log c))
      | Some _ => None
      end
  | Some (Unlock :: rest) =>
      Some (mkMachine (obj c) None (set_thread i rest (threads c)) (sent_log c))
  | Some (Shared f :: rest) =>
      Some (mkMachine (fst (f (obj c))) (m_ c)
                      (set_thread i rest (threads c))
                      (sent_log c ++ snd (f (obj c))))
  | _ => None
  end.

Fixpoint run_schedule (sched : list nat) (c : Machine) : option Machine :=
  match sched with
  | [] => Some c
  | i :: sched' =>
      match step_thread i c with
      | Some c' => run_schedule sched' c'
      | None => None
      end
  end.

(** A callback run alone, from its steps. *)
Fixpoint run_alone (t : list Instr) (n : NavSim) : NavSim :=
  match t with
  | [] => n
  | Shared f :: t' => run_alone t' (fst (f n))
  | _ :: t' => run_alone t' n
  end.

(** ** Vocabulary of the statements *)

(** The position of landmark [l] seen from the robot at [r]: the offset
    from the robot, turned back by the robot's yaw. *)
Definition in_robot_frame (r : State.t) (l : Landmark.t) : R * R :=
  (cos (State.yaw_ r) * (Landmark.x_ l - State.x_ r)
   + sin (State.yaw_ r) * (Landmark.y_ l - State.y_ r),
   - sin (State.yaw_ r) * (Landmark.x_ l - State.x_ r)
   + cos (State.yaw_ r) * (Landmark.y_ l - State.y_ r)).

Definition point_xy (p : PoseStamped) : R * R :=
  (p_x (position (pose p)), p_y (position (pose p))).

Definition is_SendTransform (o : Output) : Prop :=
  match o with SendTransform _ => True | _ => False end.

(** ** Concrete runs *)

(** A simulator at rest at the origin, commanded to 2.0 m/s, with one
    landmark, and two timer events 0.1 s apart. *)
Definition example_landmark : Landmark.t := Landmark.mk "a" 3 4 0.

Definition example_sim : NavSim :=
  mkNavSim 0.01 "landmark.yaml" [example_landmark] (State.mk 0 0 0) 0 0
           (mkTwist (tf2.mkVector3 2.0 0 0) (tf2.mkVector3 0 0 0))
           PoseStamped0 0.

Definition example_tick1 : TimerEvent :=
  mkTimerEvent 0.1 (0, 0, 0) 0.1 (fun _ => 0.1).

Definition example_tick2 : TimerEvent :=
  mkTimerEvent 0.2 (0, 0, 0) 0.2 (fun _ => 0.2).

(** A reset to (5, 7, yaw PI) arriving while a tick is due: the simulator
    is at rest at (0, 0, 0) with no error and no landmarks. *)
Definition race_obj : NavSim :=
  mkNavSim 0 EmptyString [] (State.mk 0 0 0) 0 0
           (mkTwist (tf2.mkVector3 0 0 0) (tf2.mkVector3 0 0 0))
           PoseStamped0 0.

Definition race_msg : PoseWithCovarianceStamped :=
  mkPoseWithCovarianceStamped Header0
    (mkPose (mkPoint 5 7 0) (mkQuaternionMsg 0 0 1 0)) [].

Definition race_event : TimerEvent :=
  mkTimerEvent 1 (0, 0, 0) 1 (fun _ => 1).

(** Thread 0 is the reset handler, thread 1 the timer. *)
Definition race_start : Machine :=
  mkMachine race_obj None
            [callbackInitialpose_thread race_msg; timerCallback_thread race_event]
            [].

(** ** Reading what a tick sent *)

Definition sent_transforms (outs : list Output) : list TransformStamped :=
  flat_map (fun o => match o with SendTransform t => [t] | _ => [] end) outs.

Definition published_paths (outs : list Output) : list Path :=
  flat_map (fun o => match o with PublishPath p => [p] | _ => [] end) outs.

(** What a broadcast says: parent frame, child frame, translation, rotation. *)
Definition transform_of (t : TransformStamped)
  : string * string * Point * QuaternionMsg :=
  (frame_id (ts_header t), child_frame_id t, translation t, rotation t).

(** ** Callbacks one after the other *)

Inductive Callback :=
| Timer (e : TimerEvent)
| Initialpose (msg : PoseWithCovarianceStamped).

Definition run_callback (n : NavSim) (c : Callback) : NavSim :=
  match c with
  | Timer e => fst (timerCallback e n)
  | Initialpose msg => callbackInitialpose msg n
  end.

Definition run_callbacks (cs : list Callback) (n : NavSim) : NavSim :=
  fold_left run_callback cs n.

(** Two simulators at rest with no error and one landmark each: at
    (0, 0, 0) with a landmark at (3, 4), and at (1, 1, PI/2) with a landmark
    at (1, 2). *)
Definition relative_sim1 : NavSim :=
  mkNavSim 0 EmptyString [Landmark.mk "a" 3 4 0] (State.mk 0 0 0) 0 0
           (mkTwist (tf2.mkVector3 0 0 0) (tf2.mkVector3 0 0 0))
           PoseStamped0 0.

Definition relative_sim2 : NavSim :=
  mkNavSim 0 EmptyString [Landmark.mk "a" 1 2 0] (State.mk 1 1 (PI / 2)) 0 0
           (mkTwist (tf2.mkVector3 0 0 0) (tf2.mkVector3 0 0 0))
           PoseStamped0 0.

(** A second reset message, to (1, 2, yaw 0). *)
Definition race_msg2 : PoseWithCovarianceStamped :=
  mkPoseWithCovarianceStamped Header0
    (mkPose (mkPoint 1 2 0) (mkQuaternionMsg 0 0 0 1)) [].

(** ** Facts about the tf2 functions *)

Section YawRotation.

Variable yaw : R.

Lemma setRPY_yaw :
  tf2.setRPY 0.0 0.0 yaw =
  tf2.mkQuaternion 0 0 (sin (yaw / 2)) (cos (yaw / 2)).
Proof.
  unfold tf2.setRPY.
  replace (0.0 * 0.5) with 0 by lra.
  replace (yaw * 0.5) with (yaw / 2) by lra.
  rewrite cos_0, sin_0. f_equal; ring.
Qed.

Lemma half_angle_cos : cos yaw = 1 - 2 * sin (yaw / 2) * sin (yaw / 2).
Proof. rewrite <- cos_2a_sin. f_equal. lra. Qed.

Lemma half_angle_sin : sin yaw = 2 * sin (yaw / 2) * cos (yaw / 2).
Proof. rewrite <- sin_2a. f_equal. lra. Qed.

Lemma setRotation_yaw :
  tf2.setRotation (tf2.mkQuaternion 0 0 (sin (yaw / 2)) (cos (yaw / 2))) =
  tf2.mkMatrix3x3 (tf2.mkVector3 (cos yaw) (- sin yaw) 0)
                  (tf2.mkVector3 (sin yaw) (cos yaw) 0)
                  (tf2.mkVector3 0 0 1).
Proof.
  unfold tf2.setRotation, tf2.length2; cbn [tf2.qx tf2.qy tf2.qz tf2.qw].
  assert (Hd : 0 * 0 + 0 * 0 + sin (yaw / 2) * sin (yaw / 2)
               + cos (yaw / 2) * cos (yaw / 2) = 1).
  { pose proof (sin2_cos2 (yaw / 2)) as H. unfold Rsqr in H. lra. }
  rewrite Hd, half_angle_cos, half_angle_sin.
  f_equal; f_equal; field.
Qed.

End YawRotation.

(** ** The two-argument arctangent *)

Lemma tf2Atan2_scale (y x c : R) :
  0 < c -> tf2.tf2Atan2 (y / c) (x / c) = tf2.tf2Atan2 y x.
Proof.
  intro Hc. pose proof (Rinv_0_lt_compat c Hc) as Hi.
  unfold tf2.tf2Atan2, Rdiv.
  repeat destruct Rlt_dec; repeat destruct Rle_dec;
    try reflexivity; try (exfalso; nra);
    try (f_equal; field; lra); try (do 2 f_equal; field; lra).
Qed.

Lemma cos_pos_open (y : R) :
  - PI < y <= PI -> 0 < cos y -> - (PI / 2) < y < PI / 2.
Proof.
  intros [Hl Hu] Hc. split.
  - destruct (Rlt_dec (- (PI / 2)) y) as [|Hn]; [assumption | exfalso].
    assert (H : cos (- y) <= 0) by (apply cos_le_0; lra).
    rewrite cos_neg in H. lra.
  - destruct (Rlt_dec y (PI / 2)) as [|Hn]; [assumption | exfalso].
    assert (H : cos y <= 0) by (apply cos_le_0; lra). lra.
Qed.

Lemma tan_shift (y : R) :
  cos y <> 0 -> sin (y + PI) / cos (y + PI) = sin y / cos y.
Proof. intros H. rewrite neg_sin, neg_cos. field. exact H. Qed.

(** On (-PI, PI] the arctangent of (sin y, cos y) is y itself. *)
Lemma tf2Atan2_sin_cos (y : R) :
  - PI < y <= PI -> tf2.tf2Atan2 (sin y) (cos y) = y.
Proof.
  intros Hy. unfold tf2.tf2Atan2.
  destruct (Rlt_dec 0 (cos y)) as [Hpos | Hnpos].
  - apply atan_tan. now apply cos_pos_open.
  - destruct (Rlt_dec (cos y) 0) as [Hneg | Hnneg].
    + destruct (Rle_dec 0 (sin y)) as [Hs | Hs].
      * assert (Hq : 0 <= y).
        { destruct (Rle_dec 0 y) as [|Hn]; [assumption | exfalso].
          assert (sin y < 0) by (apply sin_lt_0_var; lra). lra. }
        assert (Hq2 : PI / 2 < y).
        { destruct (Rlt_dec (PI / 2) y) as [|Hn]; [assumption | exfalso].
          assert (0 <= cos y) by (apply cos_ge_0; lra). lra. }
        replace (sin y / cos y) with (tan (y - PI)).
        -- rewrite atan_tan; lra.
        -- unfold tan. rewrite <- (tan_shift (y - PI)).
           ++ now replace (y - PI + PI) with y by ring.
           ++ replace y with (y - PI + PI) in Hneg by ring.
              rewrite neg_cos in Hneg. lra.
      * assert (Hq : y < 0).
        { destruct (Rlt_dec y 0) as [|Hn]; [assumption | exfalso].
          assert (0 <= sin y) by (apply sin_ge_0; lra). lra. }
        assert (Hq2 : y < - (PI / 2)).
        { destruct (Rlt_dec y (- (PI / 2))) as [|Hn]; [assumption | exfalso].
          assert (0 <= cos y) by (apply cos_ge_0; lra). lra. }
        replace (sin y / cos y) with (tan (y + PI)).
        -- rewrite atan_tan; lra.
        -- unfold tan. apply tan_shift; lra.
    + assert (Hc0 : cos y = 0) by lra.
      destruct (Rlt_dec 0 (sin y)) as [Hs | Hs].
      * assert (Hq : 0 <= y).
        { destruct (Rle_dec 0 y) as [|Hn]; [assumption | exfalso].
          assert (sin y < 0) by (apply sin_lt_0_var; lra). lra. }
        symmetry. apply cos_inj; [lra | pose proof PI_RGT_0; lra |].
        now rewrite cos_PI2.
      * destruct (Rlt_dec (sin y) 0) as [Hs' | Hs'].
        -- assert (Hq : y < 0).
           { destruct (Rlt_dec y 0) as [|Hn]; [assumption | exfalso].
             assert (0 <= sin y) by (apply sin_ge_0; lra). lra. }
           assert (H : - y = PI / 2).
           { apply cos_inj; [lra | pose proof PI_RGT_0; lra |].
             now rewrite cos_neg, cos_PI2. }
           lra.
        -- exfalso. pose proof (sin2_cos2 y) as H. unfold Rsqr in H. nra.
Qed.

Lemma tf2Atan2_0_neg1 : tf2.tf2Atan2 0 (-1) = PI.
Proof.
  unfold tf2.tf2Atan2.
  destruct (Rlt_dec 0 (-1)); [lra |].
  destruct (Rlt_dec (-1) 0); [| lra].
  destruct (Rle_dec 0 0); [| lra].
  replace (0 / -1) with 0 by field. rewrite atan_0. ring.
Qed.

Lemma cos_neg_asin_pos (x : R) : Rabs x < 1 -> 0 < cos (- asin x).
Proof.
  intro Hx. apply Rabs_def2 in Hx. rewrite cos_neg, cos_asin by lra.
  apply sqrt_lt_R0. unfold Rsqr. nra.
Qed.

(** The yaw that getRPY reads from a unit quaternion away from the pitch
    singularity is the textbook atan2(2(xy + wz), 1 - 2(yy + zz)). *)
Lemma getRPY_yaw_unit (q : tf2.Quaternion) :
  tf2.length2 q = 1 ->
  Rabs (2 * (tf2.qx q * tf2.qz q - tf2.qw q * tf2.qy q)) < 1 ->
  snd (tf2.getRPY (tf2.setRotation q)) =
  tf2.tf2Atan2 (2 * (tf2.qx q * tf2.qy q + tf2.qw q * tf2.qz q))
               (1 - 2 * (tf2.qy q * tf2.qy q + tf2.qz q * tf2.qz q)).
Proof.
  intros Hd Hns. unfold tf2.getRPY, tf2.getEulerYPR, tf2.setRotation.
  rewrite Hd. cbn [tf2.m_el0 tf2.m_el1 tf2.m_el2 tf2.vx tf2.vy tf2.vz snd].
  replace (tf2.qx q * (tf2.qz q * (2 / 1)) - tf2.qw q * (tf2.qy q * (2 / 1)))
    with (2 * (tf2.qx q * tf2.qz q - tf2.qw q * tf2.qy q)) by field.
  destruct (Rle_dec 1 _) as [Hle | _]; [lra |].
  cbn [tf2.e_yaw]. rewrite tf2Atan2_scale by now apply cos_neg_asin_pos.
  f_equal; field.
Qed.

(** The transform of a pose that [convertToPose] made. *)
Lemma convertToTransform_convertToPose {T : Type} `{PoseType T}
      (s : T) (h : Header) :
  convertToTransform (mkPoseStamped h (pose (convertToPose s))) =
  tf2.mkTransform
    (tf2.mkMatrix3x3 (tf2.mkVector3 (cos (get_yaw s)) (- sin (get_yaw s)) 0)
                     (tf2.mkVector3 (sin (get_yaw s)) (cos (get_yaw s)) 0)
                     (tf2.mkVector3 0 0 1))
    (tf2.mkVector3 (get_x s) (get_y s) 0.0).
Proof.
  unfold convertToTransform, convertToPose. cbn [pose position orientation
    o_x o_y o_z o_w p_x p_y p_z].
  rewrite setRPY_yaw. cbn [tf2.qx tf2.qy tf2.qz tf2.qw].
  now rewrite setRotation_yaw.
Qed.

(** The origin of [base_to_landmark] when the current pose was converted
    from the state [r]. *)
Lemma base_to_landmark_origin (r : State.t) (h : Header) (l : Landmark.t) :
  let o := tf2.m_origin
             (base_to_landmark (mkPoseStamped h (pose (convertToPose r))) l) in
  tf2.vx o = cos (State.yaw_ r) * (Landmark.x_ l - State.x_ r)
             + sin (State.yaw_ r) * (Landmark.y_ l - State.y_ r) /\
  tf2.vy o = - sin (State.yaw_ r) * (Landmark.x_ l - State.x_ r)
             + cos (State.yaw_ r) * (Landmark.y_ l - State.y_ r).
Proof.
  unfold base_to_landmark.
  rewrite convertToTransform_convertToPose.
  replace (convertToPose l)
    with (mkPoseStamped Header0 (pose (convertToPose l))) by reflexivity.
  rewrite convertToTransform_convertToPose.
  cbn. unfold tf2.dot, tf2.neg. cbn [tf2.vx tf2.vy tf2.vz].
  replace 0.0 with 0 by lra. split; ring.
Qed.

(** ** The kinematic step *)

Lemma integrateState_eq (state : State.t) (v w dt : R) :
  integrateState state v w dt =
  State.mk (State.x_ state + v * cos (State.yaw_ state + w * dt) * dt)
           (State.y_ state + v * sin (State.yaw_ state + w * dt) * dt)
           (State.yaw_ state + w * dt).
Proof. reflexivity. Qed.

(** C1. One kinematic step writes yaw' = yaw + w*dt first and then moves x
    by v*cos(yaw')*dt and y by v*sin(yaw')*dt with the yaw it has just
    written; the tick runs this step on the tracked velocity and the time
    since the previous tick, before the error model.  From (0,0,0) with
    v = 1, w = PI/2, dt = 1 the step gives yaw' = PI/2, x' = 0, y' = 1. *)
Theorem integrateState_yaw_first :
  (forall (state : State.t) (v w dt : R),
      let s' := integrateState state v w dt in
      State.yaw_ s' = State.yaw_ state + w * dt /\
      State.x_ s' = State.x_ state + v * cos (State.yaw_ s') * dt /\
      State.y_ s' = State.y_ state + v * sin (State.yaw_ s') * dt) /\
  (forall (e : TimerEvent) (n : NavSim),
      state_ (fst (timerCallback e n)) =
      simTransferError n (dist e)
        (integrateState (state_ n) (v_ n) (w_ n)
                        (now_enter e - previous_time_ n))) /\
  integrateState (State.mk 0 0 0) 1.0 (PI / 2) 1.0 = State.mk 0 1 (PI / 2).
Proof.
  split; [| split].
  - intros state v w dt. cbn. repeat split; reflexivity.
  - intros e n. reflexivity.
  - rewrite integrateState_eq. cbn [State.x_ State.y_ State.yaw_].
    replace (0 + PI / 2 * 1.0) with (PI / 2) by lra.
    rewrite cos_PI2, sin_PI2. f_equal; lra.
Qed.

(** C5. With dt = 0 the kinematic step returns the state it was given,
    whatever the velocities. *)
Theorem integrateState_dt_zero (state : State.t) (v w : R) :
  integrateState state v w 0 = state.
Proof.
  destruct state as [x y yaw]. rewrite integrateState_eq.
  cbn [State.x_ State.y_ State.yaw_]. f_equal; ring.
Qed.

(** ** Landmarks in the robot frame *)

Lemma landmark_iter_poses (cp : PoseStamped) (e : TimerEvent) (a : LoopVars)
      (l : Landmark.t) :
  poses (path (landmark_iter cp e a l)) =
  poses (path a) ++
  [set_position_xy 0 0 (path_pose a);
   set_position_xy (tf2.vx (tf2.m_origin (base_to_landmark cp l)))
                   (tf2.vy (tf2.m_origin (base_to_landmark cp l)))
                   (path_pose a)].
Proof.
  unfold landmark_iter. cbn [path poses].
  rewrite <- app_assoc. cbn [app]. f_equal.
  unfold set_position_xy. cbn [header pose position orientation p_x p_y p_z].
  now replace 0.0 with 0 by lra.
Qed.

(** ** The tick, phase by phase *)

Lemma timerCallback_v_ (e : TimerEvent) (n : NavSim) :
  v_ (fst (timerCallback e n)) =
  v_ n + 1.0 * (tf2.vx (linear (cmd_vel_ n)) - v_ n)
         * (now_enter e - previous_time_ n).
Proof. reflexivity. Qed.

Lemma timerCallback_cmd_vel_ (e : TimerEvent) (n : NavSim) :
  cmd_vel_ (fst (timerCallback e n)) = cmd_vel_ n.
Proof. reflexivity. Qed.

Lemma timerCallback_previous_time_ (e : TimerEvent) (n : NavSim) :
  previous_time_ (fst (timerCallback e n)) = now_enter e.
Proof. reflexivity. Qed.

Lemma ticks_cons (e : TimerEvent) (es : list TimerEvent) (n : NavSim) :
  ticks (e :: es) n = ticks es (fst (timerCallback e n)).
Proof. reflexivity. Qed.

(** C3. A tick takes target_v = 1.0*(commanded.v - v) and
    target_w = 1.0*(commanded.w - w) from the velocity it starts with; the
    kinematic step and the error model run on that same old velocity, the
    error model leaves it alone, and only then the velocity becomes
    v + target_v*dt and w + target_w*dt.  So v' = v + (commanded.v - v)*dt
    and w' = w + (commanded.w - w)*dt. *)
Theorem velocity_tracking_law (e : TimerEvent) (n : NavSim) :
  let dt := now_enter e - previous_time_ n in
  let cv := tf2.vx (linear (cmd_vel_ n)) in
  let cw := tf2.vz (angular (cmd_vel_ n)) in
  let n2 := call_simTransferError (dist e)
              (set_state_ (integrateState (state_ n) (v_ n) (w_ n) dt) n) in
  let n' := fst (timerCallback e n) in
  planVelocity n = (1.0 * (cv - v_ n), 1.0 * (cw - w_ n)) /\
  v_ n2 = v_ n /\ w_ n2 = w_ n /\
  n' = set_previous_time_ (now_enter e)
         (set_velocity (v_ n2 + fst (planVelocity n) * dt)
                       (w_ n2 + snd (planVelocity n) * dt)
            (set_current_pose_
               (mkPoseStamped (mkHeader (now_stamp e) "base_link")
                              (pose (convertToPose (state_ n2)))) n2)) /\
  v_ n' = v_ n + (cv - v_ n) * dt /\
  w_ n' = w_ n + (cw - w_ n) * dt.
Proof.
  cbv zeta. repeat split; try reflexivity.
  - rewrite timerCallback_v_. lra.
  - unfold timerCallback, planVelocity. cbn. lra.
Qed.

(** ** Repeated ticks under a constant command *)

Lemma tracked_velocity_step (dt c v : R) :
  0 <= 1.0 * dt < 1 -> v <= c ->
  v <= v + 1.0 * (c - v) * dt <= c.
Proof. intros Hdt Hv. split; nra. Qed.

Lemma ticks_velocity_monotone (dt : R) (evs : list TimerEvent) :
  0 <= 1.0 * dt < 1 ->
  forall (n : NavSim) (k : nat),
    v_ n <= tf2.vx (linear (cmd_vel_ n)) ->
    fixed_period dt (previous_time_ n) evs ->
    v_ (ticks (firstn k evs) n) <= v_ (ticks (firstn (S k) evs) n)
    <= tf2.vx (linear (cmd_vel_ n)).
Proof.
  intros Hdt. induction evs as [| e evs IH]; intros n k Hv Hper.
  - rewrite !firstn_nil. cbn. lra.
  - destruct Hper as [He Hper].
    pose proof (tracked_velocity_step dt _ _ Hdt Hv) as Hstep.
    destruct k as [| k].
    + cbn [firstn]. rewrite ticks_cons. cbn [ticks fold_left].
      rewrite timerCallback_v_, He. exact Hstep.
    + rewrite !firstn_cons, !ticks_cons.
      rewrite <- (timerCallback_cmd_vel_ e n).
      apply IH.
      * rewrite timerCallback_v_, timerCallback_cmd_vel_, He. apply Hstep.
      * now rewrite timerCallback_previous_time_.
Qed.

(** C6. With the command held at c, every tick dt after the one before,
    0 <= Kp*dt < 1 (Kp = 1.0) and v0 <= c, the tracked velocity after k
    ticks is at most the one after k+1 ticks, which is at most c.  With
    c = 2.0, dt = 0.1 and v0 = 0 the first tick leaves v = 0.2. *)
Theorem tracked_velocity_monotone_no_overshoot
        (n : NavSim) (dt : R) (evs : list TimerEvent)
        (Hdt : 0 <= 1.0 * dt < 1)
        (Hv0 : v_ n <= tf2.vx (linear (cmd_vel_ n)))
        (Hper : fixed_period dt (previous_time_ n) evs) :
  (forall k : nat,
      v_ (ticks (firstn k evs) n) <= v_ (ticks (firstn (S k) evs) n)
      <= tf2.vx (linear (cmd_vel_ n))) /\
  (tf2.vx (linear (cmd_vel_ n)) = 2.0 -> dt = 0.1 -> v_ n = 0 ->
   forall e1 rest, evs = e1 :: rest -> v_ (ticks [e1] n) = 0.2).
Proof.
  split.
  - intro k. now apply (ticks_velocity_monotone dt).
  - intros Hc Hd Hv e1 rest ->. destruct Hper as [He _].
    cbn [ticks fold_left]. rewrite timerCallback_v_, He, Hc, Hd, Hv. lra.
Qed.

Lemma tracked_velocity_monotone_no_overshoot_witness :
  v_ (ticks [example_tick1] example_sim) = 0.2 /\
  v_ (ticks [example_tick1] example_sim)
    <= v_ (ticks [example_tick1; example_tick2] example_sim) <= 2.0.
Proof.
  assert (Hdt : 0 <= 1.0 * 0.1 < 1) by lra.
  assert (Hv0 : v_ example_sim <= tf2.vx (linear (cmd_vel_ example_sim)))
    by (cbn; lra).
  assert (Hper : fixed_period 0.1 (previous_time_ example_sim)
                              [example_tick1; example_tick2])
    by (cbn; repeat split; lra).
  destruct (tracked_velocity_monotone_no_overshoot
              example_sim 0.1 [example_tick1; example_tick2] Hdt Hv0 Hper)
    as [Hmono Hfirst].
  split.
  - apply (Hfirst eq_refl eq_refl eq_refl example_tick1 [example_tick2] eq_refl).
  - exact (Hmono 1%nat).
Defined.

(** ** Error injection *)

(** C8. The error step of the tick rewrites [state_] and nothing else: the
    tracked velocity, the command, the landmarks and every other member
    stay as they were.  With error_coeff = 0 the state comes back
    unchanged for any three draws. *)
Theorem simTransferError_frame (d : R * R * R) (n : NavSim) :
  let n' := call_simTransferError d n in
  v_ n' = v_ n /\ w_ n' = w_ n /\
  cmd_vel_ n' = cmd_vel_ n /\
  landmark_pose_list_ n' = landmark_pose_list_ n /\
  error_coeff_ n' = error_coeff_ n /\
  config_ n' = config_ n /\
  current_pose_ n' = current_pose_ n /\
  previous_time_ n' = previous_time_ n /\
  state_ n' = State.mk (State.x_ (state_ n) + error_coeff_ n * fst (fst d))
                       (State.y_ (state_ n) + error_coeff_ n * snd (fst d))
                       (State.yaw_ (state_ n) + error_coeff_ n * snd d) /\
  (error_coeff_ n = 0 ->
   forall state : State.t, simTransferError n d state = state).
Proof.
  cbv zeta. repeat split.
  intros H0 [x y yaw]. unfold simTransferError.
  cbn [State.x_ State.y_ State.yaw_]. rewrite H0. f_equal; ring.
Qed.

Lemma simTransferError_frame_witness :
  v_ (call_simTransferError (1, 2, 3) race_obj) = 0 /\
  simTransferError race_obj (1, 2, 3) (State.mk 4 5 6) = State.mk 4 5 6.
Proof.
  destruct (simTransferError_frame (1, 2, 3) race_obj)
    as (Hv & _ & _ & _ & _ & _ & _ & _ & _ & Hzero).
  split; [exact Hv |]. apply Hzero. reflexivity.
Defined.

(** ** Pose reset *)

Lemma run_alone_callbackInitialpose (msg : PoseWithCovarianceStamped)
      (n : NavSim) :
  run_alone (callbackInitialpose_thread msg) n = callbackInitialpose msg n.
Proof. reflexivity. Qed.

(** C9. The reset handler leaves x and y of the state equal to the position
    of the message and yaw equal to the yaw that getRPY reads from the
    rotation matrix of the message quaternion, which for a unit quaternion
    away from the pitch singularity is atan2(2(xy + wz), 1 - 2(yy + zz));
    the tracked velocity, the command and the landmarks (and every other
    member) are unchanged. *)
Theorem callbackInitialpose_frame (msg : PoseWithCovarianceStamped) (n : NavSim) :
  let n' := callbackInitialpose msg n in
  let q := orientation (pwc_pose msg) in
  State.x_ (state_ n') = p_x (position (pwc_pose msg)) /\
  State.y_ (state_ n') = p_y (position (pwc_pose msg)) /\
  State.yaw_ (state_ n') =
    snd (tf2.getRPY
           (tf2.setRotation (tf2.mkQuaternion (o_x q) (o_y q) (o_z q) (o_w q)))) /\
  (o_x q * o_x q + o_y q * o_y q + o_z q * o_z q + o_w q * o_w q = 1 ->
   Rabs (2 * (o_x q * o_z q - o_w q * o_y q)) < 1 ->
   State.yaw_ (state_ n') =
     tf2.tf2Atan2 (2 * (o_x q * o_y q + o_w q * o_z q))
                  (1 - 2 * (o_y q * o_y q + o_z q * o_z q))) /\
  v_ n' = v_ n /\ w_ n' = w_ n /\
  cmd_vel_ n' = cmd_vel_ n /\
  landmark_pose_list_ n' = landmark_pose_list_ n /\
  error_coeff_ n' = error_coeff_ n /\
  config_ n' = config_ n /\
  current_pose_ n' = current_pose_ n /\
  previous_time_ n' = previous_time_ n.
Proof.
  cbv zeta. repeat split.
  intros Hunit Hns. cbn [callbackInitialpose initialpose_set_yaw state_
    set_state_ State.yaw_]. unfold initialpose_yaw.
  now rewrite getRPY_yaw_unit.
Qed.

Lemma callbackInitialpose_frame_witness :
  let msg := mkPoseWithCovarianceStamped Header0
               (mkPose (mkPoint 5 7 0) (mkQuaternionMsg 0 0 0 1)) [] in
  State.x_ (state_ (callbackInitialpose msg example_sim)) = 5 /\
  State.yaw_ (state_ (callbackInitialpose msg example_sim)) =
    tf2.tf2Atan2 (2 * (0 * 0 + 1 * 0)) (1 - 2 * (0 * 0 + 0 * 0)) /\
  v_ (callbackInitialpose msg example_sim) = 0.
Proof.
  intro msg.
  destruct (callbackInitialpose_frame msg example_sim)
    as (Hx & _ & _ & Hyaw & Hv & _).
  split; [exact Hx |]. split; [| exact Hv].
  apply Hyaw; cbn [msg pwc_pose orientation o_x o_y o_z o_w].
  - ring.
  - replace (2 * (0 * 0 - 1 * 0)) with 0 by ring. rewrite Rabs_R0. lra.
Defined.

Lemma initialpose_yaw_convertToPose (s : State.t) (h : Header) (cov : list R) :
  - PI < State.yaw_ s <= PI ->
  initialpose_yaw
    (mkPoseWithCovarianceStamped h (pose (convertToPose s)) cov) = State.yaw_ s.
Proof.
  intro Hy. unfold initialpose_yaw, convertToPose.
  cbn [pwc_pose pose orientation o_x o_y o_z o_w get_yaw State_PoseType].
  rewrite setRPY_yaw. cbn [tf2.qx tf2.qy tf2.qz tf2.qw].
  rewrite setRotation_yaw. unfold tf2.getRPY, tf2.getEulerYPR.
  cbn [tf2.m_el0 tf2.m_el1 tf2.m_el2 tf2.vx tf2.vy tf2.vz].
  rewrite Rabs_R0. destruct (Rle_dec 1 0) as [Hle | _]; [lra |].
  cbn [snd tf2.e_yaw]. rewrite asin_0, Ropp_0, cos_0, !Rdiv_1_r.
  now apply tf2Atan2_sin_cos.
Qed.

(** C10. For a state with yaw in (-PI, PI], the pose that convertToPose
    makes of it (z = 0, quaternion of setRPY(0, 0, yaw)), sent back as a
    pose reset, is read as the same yaw and leaves the state equal to the
    one converted; a simulator reset to the pose of its own state is
    unchanged. *)
Theorem convertToPose_reset_roundtrip
        (s : State.t) (n : NavSim) (h : Header) (cov : list R)
        (Hyaw : - PI < State.yaw_ s <= PI) :
  let msg := mkPoseWithCovarianceStamped h (pose (convertToPose s)) cov in
  p_z (position (pwc_pose msg)) = 0 /\
  initialpose_yaw msg = State.yaw_ s /\
  state_ (callbackInitialpose msg n) = s /\
  (state_ n = s -> callbackInitialpose msg n = n).
Proof.
  cbv zeta. pose proof (initialpose_yaw_convertToPose s h cov Hyaw) as Hy.
  assert (Hs : state_ (callbackInitialpose
                (mkPoseWithCovarianceStamped h (pose (convertToPose s)) cov) n) = s).
  { unfold callbackInitialpose, initialpose_set_yaw. cbn [state_ set_state_].
    rewrite Hy. now destruct s. }
  repeat split; try assumption.
  - cbn. lra.
  - intro Hn. destruct n as [ec cf ls st v w cmd cp pt].
    cbn [state_] in Hn. subst st.
    unfold callbackInitialpose, initialpose_set_yaw, initialpose_set_y,
      initialpose_set_x, set_state_ in *. cbn in *. now rewrite Hs.
Qed.

Lemma convertToPose_reset_roundtrip_witness :
  - PI < State.yaw_ (State.mk 1 2 0) <= PI /\
  state_ (callbackInitialpose
            (mkPoseWithCovarianceStamped Header0
               (pose (convertToPose (State.mk 1 2 0))) [])
            example_sim) = State.mk 1 2 0.
Proof.
  assert (Hyaw : - PI < State.yaw_ (State.mk 1 2 0) <= PI)
    by (pose proof PI_RGT_0; cbn; lra).
  split; [exact Hyaw |].
  apply (convertToPose_reset_roundtrip (State.mk 1 2 0) example_sim Header0 []
                                       Hyaw).
Defined.

(** ** The relative path of a tick *)

Section LandmarkLoop.

Variables (cp : PoseStamped) (e : TimerEvent).

Let segment (p0 : PoseStamped) (l : Landmark.t) : list PoseStamped :=
  [set_position_xy 0 0 p0;
   set_position_xy (tf2.vx (tf2.m_origin (base_to_landmark cp l)))
                   (tf2.vy (tf2.m_origin (base_to_landmark cp l))) p0].

(** [path_pose] is overwritten in x and y only, so every iteration pushes
    the pose the loop started with, moved to two new places. *)
Lemma landmark_loop_poses (ls : list Landmark.t) :
  forall a : LoopVars,
    poses (path (fold_left (landmark_iter cp e) ls a)) =
    poses (path a) ++ flat_map (segment (path_pose a)) ls.
Proof.
  induction ls as [| l ls IH]; intro a; cbn [fold_left flat_map].
  - now rewrite app_nil_r.
  - rewrite IH, landmark_iter_poses, <- app_assoc. reflexivity.
Qed.

Lemma landmark_loop_sent (ls : list Landmark.t) :
  forall a : LoopVars,
    exists tfs : list Output,
      sent (fold_left (landmark_iter cp e) ls a) = sent a ++ tfs /\
      List.length tfs = List.length ls /\
      Forall is_SendTransform tfs.
Proof.
  induction ls as [| l ls IH]; intro a; cbn [fold_left].
  - exists []. now rewrite app_nil_r.
  - destruct (IH (landmark_iter cp e a l)) as (tfs & Hs & Hl & Hf).
    eexists (_ :: tfs). rewrite Hs. cbn [sent landmark_iter].
    rewrite <- app_assoc. split; [reflexivity |].
    split; [cbn; now rewrite Hl |].
    constructor; [exact I | exact Hf].
Qed.

End LandmarkLoop.

Lemma pair_segments_length {A B : Type} (f g : A -> B) (ls : list A) :
  List.length (flat_map (fun l => [f l; g l]) ls) = (2 * List.length ls)%nat.
Proof. induction ls as [| l ls IH]; cbn [flat_map List.length app]; lia. Qed.

Lemma pair_segments_nth {A B : Type} (f g : A -> B) (ls : list A) :
  forall (i : nat) (l : A),
    nth_error ls i = Some l ->
    nth_error (flat_map (fun l => [f l; g l]) ls) (2 * i) = Some (f l) /\
    nth_error (flat_map (fun l => [f l; g l]) ls) (2 * i + 1) = Some (g l).
Proof.
  induction ls as [| l0 ls IH]; intros [| i] l H; try discriminate.
  - injection H as <-. split; reflexivity.
  - cbn [nth_error] in H. destruct (IH i l H) as [H0 H1].
    replace (2 * S i)%nat with (S (S (2 * i))) by lia.
    replace (S (S (2 * i)) + 1)%nat with (S (S (2 * i + 1))) by lia.
    split; assumption.
Qed.

(** C7. A tick sends its transforms, then one path, then the current pose.
    The path has exactly 2N poses for N landmarks; read as (x, y) points
    they are, landmark after landmark in the order of the registry, the
    robot origin (0,0) followed by that landmark in the robot frame: the
    i-th landmark sits at places 2i and 2i+1. *)
Theorem relative_path_two_points_per_landmark (e : TimerEvent) (n : NavSim) :
  let n' := fst (timerCallback e n) in
  let origin := fun _ : Landmark.t => (0, 0) in
  exists (tfs : list Output) (p : Path),
    snd (timerCallback e n) =
      tfs ++ [PublishPath p; PublishCurrentPose (current_pose_ n')] /\
    Forall is_SendTransform tfs /\
    List.length (poses p) = (2 * List.length (landmark_pose_list_ n))%nat /\
    map point_xy (poses p) =
      flat_map (fun l => [origin l; in_robot_frame (state_ n') l])
               (landmark_pose_list_ n) /\
    (forall (i : nat) (l : Landmark.t),
        nth_error (landmark_pose_list_ n) i = Some l ->
        nth_error (map point_xy (poses p)) (2 * i) = Some (0, 0) /\
        nth_error (map point_xy (poses p)) (2 * i + 1)
          = Some (in_robot_frame (state_ n') l)).
Proof.
  cbv zeta.
  set (cp := current_pose_ (fst (timerCallback e n))).
  set (a0 := mkLoopVars Path0 PoseStamped0
               [publishPoseToTransform cp (frame_id (header cp)) (now_tf e 0)]).
  set (a := fold_left (landmark_iter cp e) (landmark_pose_list_ n) a0).
  assert (Hpts : map point_xy (poses (path a)) =
                 flat_map (fun l => [(0, 0); in_robot_frame
                                       (state_ (fst (timerCallback e n))) l])
                          (landmark_pose_list_ n)).
  { unfold a. rewrite landmark_loop_poses. cbn [a0 path poses Path0 app path_pose].
    induction (landmark_pose_list_ n) as [| l ls IH]; [reflexivity |].
    cbn [flat_map app map]. rewrite IH. do 2 f_equal.
    unfold point_xy, in_robot_frame. cbn [set_position_xy pose position p_x p_y].
    destruct (base_to_landmark_origin (state_ (fst (timerCallback e n)))
                (mkHeader (now_stamp e) "base_link") l) as [Hx Hy].
    f_equal; [exact Hx | exact Hy]. }
  destruct (landmark_loop_sent cp e (landmark_pose_list_ n) a0)
    as (tfs & Hs & Hl & Hf).
  exists (sent a), (path a). repeat split.
  - unfold a. rewrite Hs. apply Forall_app. split; [| exact Hf].
    constructor; [exact I | constructor].
  - rewrite <- (length_map point_xy), Hpts. apply pair_segments_length.
  - exact Hpts.
  - rewrite Hpts.
    apply (pair_segments_nth (fun _ => (0, 0))
             (in_robot_frame (state_ (fst (timerCallback e n)))) _ i l H).
  - rewrite Hpts.
    apply (pair_segments_nth (fun _ => (0, 0))
             (in_robot_frame (state_ (fst (timerCallback e n)))) _ i l H).
Qed.

Lemma relative_path_two_points_per_landmark_witness :
  exists p : Path,
    In (PublishPath p) (snd (timerCallback example_tick1 example_sim)) /\
    List.length (poses p) = 2%nat /\
    nth_error (map point_xy (poses p)) 0 = Some (0, 0) /\
    nth_error (map point_xy (poses p)) 1 =
      Some (in_robot_frame (state_ (fst (timerCallback example_tick1 example_sim)))
                           example_landmark).
Proof.
  destruct (relative_path_two_points_per_landmark example_tick1 example_sim)
    as (tfs & p & Hout & _ & Hlen & _ & Hnth).
  exists p. split; [| split; [exact Hlen |]].
  - rewrite Hout. apply in_or_app. right. now left.
  - exact (Hnth 0%nat example_landmark eq_refl).
Defined.

(** ** A reset that arrives during a tick *)

(** The mutex does exclude a thread that asks for it. *)
Lemma LockGuard_waits (i j : nat) (rest : list Instr) (c : Machine) :
  m_ c = Some j ->
  nth_error (threads c) i = Some (LockGuard :: rest) ->
  step_thread i c = None.
Proof. intros Hm Ht. unfold step_thread. now rewrite Ht, Hm. Qed.

(** A thread whose next step is [Shared] never waits, whoever holds the
    mutex: this is the timer. *)
Lemma Shared_never_waits (i : nat) (f : NavSim -> NavSim * list Output)
      (rest : list Instr) (c : Machine) :
  nth_error (threads c) i = Some (Shared f :: rest) ->
  exists c' : Machine,
    step_thread i c = Some c' /\ obj c' = fst (f (obj c)) /\ m_ c' = m_ c.
Proof.
  intro Ht. unfold step_thread. rewrite Ht. eexists. repeat split.
Qed.

Lemma timerCallback_current_pose_ (e : TimerEvent) (n : NavSim) :
  current_pose_ (fst (timerCallback e n)) =
  mkPoseStamped (mkHeader (now_stamp e) "base_link")
                (pose (convertToPose (state_ (fst (timerCallback e n))))).
Proof. reflexivity. Qed.

Lemma timerCallback_publishes_current_pose_ (e : TimerEvent) (n : NavSim) :
  In (PublishCurrentPose (current_pose_ (fst (timerCallback e n))))
     (snd (timerCallback e n)).
Proof.
  unfold timerCallback. cbn [fst snd]. apply in_or_app. right. right. now left.
Qed.

Lemma race_msg_yaw : initialpose_yaw race_msg = PI.
Proof.
  unfold initialpose_yaw, race_msg.
  cbn [pwc_pose orientation o_x o_y o_z o_w].
  rewrite getRPY_yaw_unit; cbn [tf2.qx tf2.qy tf2.qz tf2.qw].
  - replace (2 * (0 * 0 + 0 * 1)) with 0 by ring.
    replace (1 - 2 * (0 * 0 + 1 * 1)) with (-1) by ring.
    apply tf2Atan2_0_neg1.
  - unfold tf2.length2. cbn. ring.
  - replace (2 * (0 * 1 - 0 * 0)) with 0 by ring. rewrite Rabs_R0. lra.
Qed.

Lemma race_torn_state :
  state_ (fst (timerCallback race_event
                 (initialpose_set_y race_msg
                    (initialpose_set_x race_msg race_obj)))) = State.mk 5 7 0.
Proof.
  cbn. rewrite integrateState_eq. unfold simTransferError.
  cbn [State.x_ State.y_ State.yaw_ error_coeff_ set_state_ initialpose_set_y
       initialpose_set_x race_obj fst snd]. f_equal; ring.
Qed.

(** C4, on the code.  The reset handler takes the mutex, writes x and y,
    and before it writes yaw the timer runs: [timerCallback] never asks for
    the mutex.  The tick then works on the state (5, 7, 0) and publishes the
    pose (5, 7) with the identity orientation, while the mutex is still
    held by the reset.  That state is neither the one before the reset,
    (0, 0, 0), nor the one the reset installs, (5, 7, PI). *)
Theorem timerCallback_without_lock_reads_torn_state :
  exists c : Machine,
    run_schedule [0; 0; 0; 1]%nat race_start = Some c /\
    m_ c = Some 0%nat /\
    state_ (obj c) = State.mk 5 7 0 /\
    In (PublishCurrentPose
          (mkPoseStamped (mkHeader 1 "base_link")
             (mkPose (mkPoint 5 7 0) (mkQuaternionMsg 0 0 0 1))))
       (sent_log c) /\
    state_ race_obj = State.mk 0 0 0 /\
    state_ (callbackInitialpose race_msg race_obj) = State.mk 5 7 PI /\
    State.mk 5 7 0 <> State.mk 0 0 0 /\
    State.mk 5 7 0 <> State.mk 5 7 PI.
Proof.
  set (n2 := initialpose_set_y race_msg (initialpose_set_x race_msg race_obj)).
  exists (mkMachine (fst (timerCallback race_event n2)) (Some 0%nat)
            [[Shared (fun n => (initialpose_set_yaw race_msg n, [])); Unlock]; []]
            (snd (timerCallback race_event n2))).
  split; [reflexivity |].
  split; [reflexivity |].
  split; [exact race_torn_state |].
  split; [| split; [| split; [| split]]].
  - cbn [sent_log].
    pose proof (timerCallback_publishes_current_pose_ race_event n2) as Hin.
    rewrite timerCallback_current_pose_ in Hin. fold n2 in Hin.
    unfold n2 in Hin at 1. rewrite race_torn_state in Hin.
    unfold convertToPose in Hin. rewrite setRPY_yaw in Hin.
    cbn [pose get_x get_y get_yaw State_PoseType State.x_ State.y_ State.yaw_
         tf2.qx tf2.qy tf2.qz tf2.qw now_stamp race_event] in Hin.
    replace (0 / 2) with 0 in Hin by field. rewrite sin_0, cos_0 in Hin.
    replace 0.0 with 0 in Hin by lra. exact Hin.
  - reflexivity.
  - unfold callbackInitialpose, initialpose_set_yaw. cbn [state_ set_state_].
    rewrite race_msg_yaw. reflexivity.
  - intro H. injection H as H5 _. lra.
  - intro H. injection H as Hpi. pose proof PI_RGT_0. lra.
Qed.

(** * Further properties of the code *)

Lemma sin_cos_one (a : R) : sin a * sin a + cos a * cos a = 1.
Proof. pose proof (sin2_cos2 a) as H. unfold Rsqr in H. exact H. Qed.

(** ** Poses and transforms *)

(** X2. convertToPose puts x and y in the position with z = 0 and gives
    the orientation (0, 0, sin(yaw/2), cos(yaw/2)), a unit quaternion,
    for a State and for a Landmark alike. *)
Theorem convertToPose_unit_quaternion {T : Type} `{PoseType T} (state : T) :
  let p := pose (convertToPose state) in
  position p = mkPoint (get_x state) (get_y state) 0 /\
  o_x (orientation p) = 0 /\ o_y (orientation p) = 0 /\
  o_z (orientation p) = sin (get_yaw state / 2) /\
  o_w (orientation p) = cos (get_yaw state / 2) /\
  o_x (orientation p) * o_x (orientation p)
  + o_y (orientation p) * o_y (orientation p)
  + o_z (orientation p) * o_z (orientation p)
  + o_w (orientation p) * o_w (orientation p) = 1.
Proof.
  cbv zeta. unfold convertToPose. rewrite setRPY_yaw.
  cbn [pose position orientation o_x o_y o_z o_w tf2.qx tf2.qy tf2.qz tf2.qw].
  pose proof (sin_cos_one (get_yaw state / 2)).
  repeat split; try reflexivity; try lra.
  f_equal. lra.
Qed.

(** X3. For every pose whose quaternion is not zero, unit or not,
    inverse(convertToTransform(p)) * convertToTransform(p) is the identity
    transform: setRotation normalises by the squared length, so the basis
    is a rotation and its transpose inverts it. *)
Theorem convertToTransform_inverse (p : PoseStamped)
        (Hq : o_x (orientation (pose p)) * o_x (orientation (pose p))
              + o_y (orientation (pose p)) * o_y (orientation (pose p))
              + o_z (orientation (pose p)) * o_z (orientation (pose p))
              + o_w (orientation (pose p)) * o_w (orientation (pose p)) <> 0) :
  tf2.mul (tf2.inverse (convertToTransform p)) (convertToTransform p) =
  tf2.mkTransform
    (tf2.mkMatrix3x3 (tf2.mkVector3 1 0 0) (tf2.mkVector3 0 1 0)
                     (tf2.mkVector3 0 0 1))
    (tf2.mkVector3 0 0 0).
Proof.
  destruct p as [h [[px py pz] [qx qy qz qw]]].
  cbn [pose orientation o_x o_y o_z o_w] in Hq.
  assert (Hs : (qx * qx + qy * qy + qz * qz + qw * qw)
               * (2 / (qx * qx + qy * qy + qz * qz + qw * qw)) = 2)
    by (field; exact Hq).
  unfold convertToTransform, tf2.setRotation, tf2.length2.
  cbn [pose position orientation o_x o_y o_z o_w p_x p_y p_z
       tf2.qx tf2.qy tf2.qz tf2.qw].
  set (s := 2 / (qx * qx + qy * qy + qz * qz + qw * qw)) in *.
  clearbody s. cbv zeta.
  unfold tf2.mul, tf2.inverse, tf2.mul_mat, tf2.apply, tf2.mul_vec,
    tf2.transpose, tf2.tdotx, tf2.tdoty, tf2.tdotz, tf2.dot, tf2.neg.
  cbn [tf2.m_basis tf2.m_origin tf2.m_el0 tf2.m_el1 tf2.m_el2
       tf2.vx tf2.vy tf2.vz].
  f_equal; [f_equal |]; f_equal; nsatz.
Qed.

Lemma convertToTransform_inverse_witness :
  let p := mkPoseStamped Header0
             (mkPose (mkPoint 1 2 3) (mkQuaternionMsg 1 2 3 4)) in
  tf2.mul (tf2.inverse (convertToTransform p)) (convertToTransform p) =
  tf2.mkTransform
    (tf2.mkMatrix3x3 (tf2.mkVector3 1 0 0) (tf2.mkVector3 0 1 0)
                     (tf2.mkVector3 0 0 1))
    (tf2.mkVector3 0 0 0).
Proof.
  intro p. apply (convertToTransform_inverse p).
  cbn [p pose orientation o_x o_y o_z o_w]. lra.
Defined.

(** X4. With the current pose converted from the robot state r, the whole
    base_to_landmark transform of landmark l is the rotation about z by
    yaw(l) - yaw(r) placed at the landmark's robot-frame position with
    z = 0; the position part does not depend on the landmark's yaw. *)
Theorem base_to_landmark_rotation (r : State.t) (h : Header) (l : Landmark.t) :
  let d := Landmark.yaw_ l - State.yaw_ r in
  base_to_landmark (mkPoseStamped h (pose (convertToPose r))) l =
  tf2.mkTransform
    (tf2.mkMatrix3x3 (tf2.mkVector3 (cos d) (- sin d) 0)
                     (tf2.mkVector3 (sin d) (cos d) 0)
                     (tf2.mkVector3 0 0 1))
    (tf2.mkVector3 (fst (in_robot_frame r l)) (snd (in_robot_frame r l)) 0).
Proof.
  cbv zeta. unfold base_to_landmark.
  rewrite convertToTransform_convertToPose.
  replace (convertToPose l)
    with (mkPoseStamped Header0 (pose (convertToPose l))) by reflexivity.
  rewrite convertToTransform_convertToPose.
  rewrite cos_minus, sin_minus.
  unfold tf2.mul, tf2.inverse, tf2.mul_mat, tf2.apply, tf2.mul_vec, tf2.transpose,
    tf2.tdotx, tf2.tdoty, tf2.tdotz, tf2.dot, tf2.neg, in_robot_frame.
  cbn [tf2.m_basis tf2.m_origin tf2.m_el0 tf2.m_el1 tf2.m_el2 tf2.vx tf2.vy tf2.vz
       fst snd get_x get_y get_yaw State_PoseType Landmark_PoseType].
  replace 0.0 with 0 by lra.
  f_equal; [f_equal |]; f_equal; ring.
Qed.

(** X5. The landmark point of the path is as far from (0,0) as the
    landmark is from the robot, and turning it by the robot's yaw and
    adding the robot's position gives the landmark's world position back. *)
Theorem relative_point_range_and_back (r : State.t) (h : Header) (l : Landmark.t) :
  let o := tf2.m_origin
             (base_to_landmark (mkPoseStamped h (pose (convertToPose r))) l) in
  tf2.vx o * tf2.vx o + tf2.vy o * tf2.vy o =
    (Landmark.x_ l - State.x_ r) * (Landmark.x_ l - State.x_ r)
    + (Landmark.y_ l - State.y_ r) * (Landmark.y_ l - State.y_ r) /\
  Landmark.x_ l =
    State.x_ r + cos (State.yaw_ r) * tf2.vx o - sin (State.yaw_ r) * tf2.vy o /\
  Landmark.y_ l =
    State.y_ r + sin (State.yaw_ r) * tf2.vx o + cos (State.yaw_ r) * tf2.vy o.
Proof.
  cbv zeta. destruct (base_to_landmark_origin r h l) as [Hx Hy].
  cbv zeta in Hx, Hy. rewrite Hx, Hy.
  pose proof (sin_cos_one (State.yaw_ r)) as H1.
  set (c := cos (State.yaw_ r)) in *. set (s := sin (State.yaw_ r)) in *.
  set (dx := Landmark.x_ l - State.x_ r). set (dy := Landmark.y_ l - State.y_ r).
  repeat split.
  - replace ((c * dx + s * dy) * (c * dx + s * dy)
             + (- s * dx + c * dy) * (- s * dx + c * dy))
      with ((s * s + c * c) * (dx * dx + dy * dy)) by ring.
    rewrite H1. ring.
  - replace (State.x_ r + c * (c * dx + s * dy) - s * (- s * dx + c * dy))
      with (State.x_ r + (s * s + c * c) * dx) by ring.
    rewrite H1. unfold dx. ring.
  - replace (State.y_ r + s * (c * dx + s * dy) + c * (- s * dx + c * dy))
      with (State.y_ r + (s * s + c * c) * dy) by ring.
    rewrite H1. unfold dy. ring.
Qed.

(** ** The kinematic step, again *)

(** X6. One kinematic step moves the robot by exactly |v * dt|: the squared
    displacement is (v*dt)^2 whatever the yaw and the turn rate. *)
Theorem integrateState_step_length (state : State.t) (v w dt : R) :
  let s' := integrateState state v w dt in
  (State.x_ s' - State.x_ state) * (State.x_ s' - State.x_ state)
  + (State.y_ s' - State.y_ state) * (State.y_ s' - State.y_ state)
  = (v * dt) * (v * dt).
Proof.
  cbv zeta. rewrite integrateState_eq. cbn [State.x_ State.y_].
  pose proof (sin_cos_one (State.yaw_ state + w * dt)) as H1.
  set (c := cos _) in *. set (s := sin _) in *.
  replace ((State.x_ state + v * c * dt - State.x_ state)
           * (State.x_ state + v * c * dt - State.x_ state)
           + (State.y_ state + v * s * dt - State.y_ state)
             * (State.y_ state + v * s * dt - State.y_ state))
    with ((s * s + c * c) * (v * dt * (v * dt))) by ring.
  rewrite H1. ring.
Qed.

(** X7. Driving straight (w = 0) or turning on the spot (v = 0), two steps
    of d1 and d2 are one step of d1 + d2; the yaw adds up like this for
    any v and w. *)
Theorem integrateState_additive (state : State.t) (v w d1 d2 : R) :
  integrateState (integrateState state v 0 d1) v 0 d2
    = integrateState state v 0 (d1 + d2) /\
  integrateState (integrateState state 0 w d1) 0 w d2
    = integrateState state 0 w (d1 + d2) /\
  State.yaw_ (integrateState (integrateState state v w d1) v w d2)
    = State.yaw_ (integrateState state v w (d1 + d2)).
Proof.
  rewrite !integrateState_eq. cbn [State.x_ State.y_ State.yaw_].
  repeat split.
  - replace (State.yaw_ state + 0 * d1 + 0 * d2) with (State.yaw_ state) by ring.
    replace (State.yaw_ state + 0 * d1) with (State.yaw_ state) by ring.
    replace (State.yaw_ state + 0 * (d1 + d2)) with (State.yaw_ state) by ring.
    f_equal; ring.
  - f_equal; ring.
  - ring.
Qed.

(** ** Whole ticks *)

Lemma timerCallback_v_plain (e : TimerEvent) (n : NavSim) :
  v_ (fst (timerCallback e n)) =
  v_ n + (tf2.vx (linear (cmd_vel_ n)) - v_ n)
         * (now_enter e - previous_time_ n).
Proof. rewrite timerCallback_v_. lra. Qed.

Lemma timerCallback_w_plain (e : TimerEvent) (n : NavSim) :
  w_ (fst (timerCallback e n)) =
  w_ n + (tf2.vz (angular (cmd_vel_ n)) - w_ n)
         * (now_enter e - previous_time_ n).
Proof.
  change (w_ (fst (timerCallback e n))) with
    (w_ n + 1.0 * (tf2.vz (angular (cmd_vel_ n)) - w_ n)
            * (now_enter e - previous_time_ n)).
  lra.
Qed.

Lemma timerCallback_state_ (e : TimerEvent) (n : NavSim) :
  state_ (fst (timerCallback e n)) =
  simTransferError n (dist e)
    (integrateState (state_ n) (v_ n) (w_ n) (now_enter e - previous_time_ n)).
Proof. reflexivity. Qed.

Lemma timerCallback_error_coeff_ (e : TimerEvent) (n : NavSim) :
  error_coeff_ (fst (timerCallback e n)) = error_coeff_ n.
Proof. reflexivity. Qed.

Lemma simTransferError_zero (n : NavSim) (d : R * R * R) (s : State.t) :
  error_coeff_ n = 0 -> simTransferError n d s = s.
Proof.
  intros H0. destruct s as [x y yaw]. unfold simTransferError.
  cbn [State.x_ State.y_ State.yaw_]. rewrite H0. f_equal; ring.
Qed.

(** X8. A tick whose clock reads the previous tick's time, with
    error_coeff = 0, changes neither the state nor the tracked velocity. *)
Theorem timerCallback_zero_dt_no_error (e : TimerEvent) (n : NavSim)
        (Hdt : now_enter e = previous_time_ n) (Herr : error_coeff_ n = 0) :
  state_ (fst (timerCallback e n)) = state_ n /\
  v_ (fst (timerCallback e n)) = v_ n /\
  w_ (fst (timerCallback e n)) = w_ n.
Proof.
  rewrite timerCallback_state_, timerCallback_v_plain, timerCallback_w_plain, Hdt.
  replace (previous_time_ n - previous_time_ n) with 0 by ring.
  rewrite simTransferError_zero by assumption.
  destruct (state_ n) as [x y yaw]. rewrite integrateState_eq.
  cbn [State.x_ State.y_ State.yaw_].
  repeat split; [f_equal; ring | ring | ring].
Qed.

Lemma timerCallback_zero_dt_no_error_witness :
  state_ (fst (timerCallback (mkTimerEvent 0 (1, 2, 3) 0 (fun _ => 0)) race_obj))
  = State.mk 0 0 0.
Proof.
  apply (timerCallback_zero_dt_no_error
           (mkTimerEvent 0 (1, 2, 3) 0 (fun _ => 0)) race_obj);
    reflexivity.
Defined.

(** X9. A robot at rest with a zero command and error_coeff = 0 stays
    where it is: after any number of ticks, at any times, the state is the
    same and both velocities are 0. *)
Theorem ticks_at_rest (es : list TimerEvent) (n : NavSim)
        (Hv : v_ n = 0) (Hw : w_ n = 0)
        (Hcv : tf2.vx (linear (cmd_vel_ n)) = 0)
        (Hcw : tf2.vz (angular (cmd_vel_ n)) = 0)
        (Herr : error_coeff_ n = 0) :
  state_ (ticks es n) = state_ n /\
  v_ (ticks es n) = 0 /\ w_ (ticks es n) = 0.
Proof.
  revert n Hv Hw Hcv Hcw Herr.
  induction es as [| e es IH]; intros n Hv Hw Hcv Hcw Herr.
  - cbn. auto.
  - rewrite ticks_cons.
    assert (Hv1 : v_ (fst (timerCallback e n)) = 0)
      by (rewrite timerCallback_v_plain, Hv, Hcv; ring).
    assert (Hw1 : w_ (fst (timerCallback e n)) = 0)
      by (rewrite timerCallback_w_plain, Hw, Hcw; ring).
    assert (Hs1 : state_ (fst (timerCallback e n)) = state_ n).
    { rewrite timerCallback_state_, simTransferError_zero by assumption.
      rewrite integrateState_eq, Hv, Hw. destruct (state_ n) as [x y yaw].
      cbn [State.x_ State.y_ State.yaw_]. f_equal; ring. }
    destruct (IH (fst (timerCallback e n)) Hv1 Hw1) as (Hs & Hv' & Hw');
      try (rewrite timerCallback_cmd_vel_; assumption).
    + now rewrite timerCallback_error_coeff_.
    + rewrite Hs, Hs1. auto.
Qed.

Lemma ticks_at_rest_witness :
  state_ (ticks [race_event; example_tick1; example_tick2] race_obj)
  = State.mk 0 0 0.
Proof.
  apply (ticks_at_rest [race_event; example_tick1; example_tick2] race_obj);
    reflexivity.
Defined.

(** X10. With the command held and every tick dt after the one before, the
    tracked velocities after k ticks are c - (c - v0)*(1 - dt)^k, for v
    and for w: the distance to the command shrinks by the factor 1 - dt per
    tick. *)
Theorem ticks_velocity_closed_form (dt : R) (es : list TimerEvent) (n : NavSim)
        (Hper : fixed_period dt (previous_time_ n) es) :
  let cv := tf2.vx (linear (cmd_vel_ n)) in
  let cw := tf2.vz (angular (cmd_vel_ n)) in
  v_ (ticks es n) = cv - (cv - v_ n) * (1 - dt) ^ List.length es /\
  w_ (ticks es n) = cw - (cw - w_ n) * (1 - dt) ^ List.length es.
Proof.
  cbv zeta. revert n Hper.
  induction es as [| e es IH]; intros n Hper.
  - cbn. split; ring.
  - destruct Hper as [He Hper]. rewrite ticks_cons.
    rewrite <- timerCallback_previous_time_ with (n := n) in Hper.
    destruct (IH _ Hper) as [Hv Hw]. rewrite Hv, Hw.
    rewrite timerCallback_cmd_vel_, timerCallback_v_plain, timerCallback_w_plain, He.
    cbn [List.length pow]. split; ring.
Qed.

Lemma ticks_velocity_closed_form_witness :
  v_ (ticks [example_tick1; example_tick2] example_sim)
  = 2.0 - (2.0 - 0) * (1 - 0.1) ^ 2.
Proof.
  assert (Hper : fixed_period 0.1 (previous_time_ example_sim)
                              [example_tick1; example_tick2])
    by (cbn; repeat split; lra).
  exact (proj1 (ticks_velocity_closed_form 0.1 [example_tick1; example_tick2]
                                           example_sim Hper)).
Defined.

(** X11. A tracked velocity equal to the command stays equal to it over
    any number of ticks, whatever the times between them; so for v, so
    for w. *)
Theorem ticks_velocity_at_command (es : list TimerEvent) (n : NavSim) :
  (v_ n = tf2.vx (linear (cmd_vel_ n)) ->
   v_ (ticks es n) = tf2.vx (linear (cmd_vel_ n))) /\
  (w_ n = tf2.vz (angular (cmd_vel_ n)) ->
   w_ (ticks es n) = tf2.vz (angular (cmd_vel_ n))).
Proof.
  revert n. induction es as [| e es IH]; intro n; [split; auto |].
  rewrite ticks_cons. destruct (IH (fst (timerCallback e n))) as [Hv Hw].
  rewrite timerCallback_cmd_vel_ in Hv, Hw. split; intro H.
  - apply Hv. rewrite timerCallback_v_plain, H. ring.
  - apply Hw. rewrite timerCallback_w_plain, H. ring.
Qed.

Lemma ticks_velocity_at_command_witness :
  w_ (ticks [example_tick1; race_event] example_sim) = 0.
Proof.
  exact (proj2 (ticks_velocity_at_command [example_tick1; race_event]
                                          example_sim) eq_refl).
Defined.

(** X12. The tick does not check its sampling time.  If the clock moved
    by exactly 1 s the tracked v lands on the command; if it moved by more
    and v was below the command, v ends above it; if the clock went
    backwards and v was below the command, v ends lower than it was. *)
Theorem timerCallback_sampling_time_unchecked (e : TimerEvent) (n : NavSim) :
  let dt := now_enter e - previous_time_ n in
  let c := tf2.vx (linear (cmd_vel_ n)) in
  let v' := v_ (fst (timerCallback e n)) in
  (dt = 1 -> v' = c) /\
  (1 < dt -> v_ n < c -> c < v') /\
  (dt < 0 -> v_ n < c -> v' < v_ n).
Proof.
  cbv zeta. rewrite timerCallback_v_plain.
  repeat split.
  - intros ->. lra.
  - intros Hdt Hv. nra.
  - intros Hdt Hv. nra.
Qed.

Lemma timerCallback_sampling_time_unchecked_witness :
  2.0 < v_ (fst (timerCallback (mkTimerEvent 3 (0, 0, 0) 3 (fun _ => 3))
                               example_sim)) /\
  v_ (fst (timerCallback (mkTimerEvent (-1) (0, 0, 0) 0 (fun _ => 0))
                         example_sim)) < 0.
Proof.
  split.
  - apply (proj1 (proj2 (timerCallback_sampling_time_unchecked
                           (mkTimerEvent 3 (0, 0, 0) 3 (fun _ => 3))
                           example_sim))); cbn; lra.
  - apply (proj2 (proj2 (timerCallback_sampling_time_unchecked
                           (mkTimerEvent (-1) (0, 0, 0) 0 (fun _ => 0))
                           example_sim))); cbn; lra.
Defined.

(** X13. No tick and no pose reset, in any order and number, changes the
    landmark registry, error_coeff, the configuration path or the commanded
    velocity. *)
Theorem callbacks_keep_configuration (cs : list Callback) (n : NavSim) :
  landmark_pose_list_ (run_callbacks cs n) = landmark_pose_list_ n /\
  error_coeff_ (run_callbacks cs n) = error_coeff_ n /\
  config_ (run_callbacks cs n) = config_ n /\
  cmd_vel_ (run_callbacks cs n) = cmd_vel_ n.
Proof.
  revert n. induction cs as [| c cs IH]; intro n; [repeat split |].
  unfold run_callbacks in *. cbn [fold_left].
  destruct (IH (run_callback n c)) as (Hl & He & Hc & Hv).
  rewrite Hl, He, Hc, Hv. destruct c; repeat split.
Qed.

(** ** What a tick sends *)

Lemma sent_transforms_app (a b : list Output) :
  sent_transforms (a ++ b) = sent_transforms a ++ sent_transforms b.
Proof. unfold sent_transforms. apply flat_map_app. Qed.

Lemma published_paths_app (a b : list Output) :
  published_paths (a ++ b) = published_paths a ++ published_paths b.
Proof. unfold published_paths. apply flat_map_app. Qed.

Lemma published_paths_transforms (tfs : list Output) :
  Forall is_SendTransform tfs -> published_paths tfs = [].
Proof.
  induction 1 as [| o tfs Ho _ IH]; [reflexivity |].
  destruct o; try contradiction. exact IH.
Qed.

Section LandmarkLoopSent.

Variables (cp : PoseStamped) (e : TimerEvent).

Let broadcast (l : Landmark.t) : string * string * Point * QuaternionMsg :=
  ("map"%string, Landmark.landmark_id_ l,
   mkPoint (Landmark.x_ l) (Landmark.y_ l) 0,
   orientation (pose (convertToPose l))).

Lemma landmark_loop_transforms (ls : list Landmark.t) :
  forall a : LoopVars,
    map transform_of (sent_transforms (sent (fold_left (landmark_iter cp e) ls a)))
    = map transform_of (sent_transforms (sent a)) ++ map broadcast ls.
Proof.
  induction ls as [| l ls IH]; intro a; cbn [fold_left map].
  - now rewrite app_nil_r.
  - rewrite IH. cbn [landmark_iter sent]. rewrite sent_transforms_app, map_app.
    rewrite <- app_assoc. f_equal. cbn. unfold transform_of, broadcast. cbn.
    do 3 f_equal. f_equal. lra.
Qed.

Lemma landmark_loop_header (ls : list Landmark.t) :
  forall a : LoopVars,
    path_header (path (fold_left (landmark_iter cp e) ls a)) =
    match ls with
    | [] => path_header (path a)
    | _ :: _ => mkHeader (stamp (header cp)) (frame_id (header cp))
    end.
Proof.
  induction ls as [| l ls IH]; intro a; [reflexivity |].
  cbn [fold_left]. rewrite IH. destruct ls; reflexivity.
Qed.

End LandmarkLoopSent.

Lemma timerCallback_published_paths (e : TimerEvent) (n : NavSim) :
  let cp := current_pose_ (fst (timerCallback e n)) in
  published_paths (snd (timerCallback e n)) =
  [path (fold_left (landmark_iter cp e) (landmark_pose_list_ n)
           (mkLoopVars Path0 PoseStamped0
              [publishPoseToTransform cp (frame_id (header cp)) (now_tf e 0)]))].
Proof.
  cbv zeta. unfold timerCallback at 1. cbn [snd].
  rewrite published_paths_app.
  set (cp := current_pose_ (fst (timerCallback e n))).
  destruct (landmark_loop_sent cp e (landmark_pose_list_ n)
              (mkLoopVars Path0 PoseStamped0
                 [publishPoseToTransform cp (frame_id (header cp)) (now_tf e 0)]))
    as (tfs & Hs & _ & Hf).
  cbn [sent] in Hs.
  change (sent (fold_left _ _ _)) with
    (sent (fold_left (landmark_iter cp e) (landmark_pose_list_ n)
       (mkLoopVars Path0 PoseStamped0
          [publishPoseToTransform cp (frame_id (header cp)) (now_tf e 0)]))).
  rewrite Hs, published_paths_app, (published_paths_transforms tfs Hf).
  reflexivity.
Qed.

(** ** The landmark points of the published path *)

(** A tick of a simulator at rest with no error keeps the state. *)
Lemma timerCallback_at_rest_state (e : TimerEvent) (n : NavSim) :
  v_ n = 0 -> w_ n = 0 -> error_coeff_ n = 0 ->
  state_ (fst (timerCallback e n)) = state_ n.
Proof.
  intros Hv Hw Herr.
  rewrite timerCallback_state_, simTransferError_zero by assumption.
  rewrite integrateState_eq, Hv, Hw. destruct (state_ n) as [x y yaw].
  cbn [State.x_ State.y_ State.yaw_]. f_equal; ring.
Qed.

(** The poses of the one path a tick publishes. *)
Lemma timerCallback_path_poses (e : TimerEvent) (n : NavSim) :
  let cp := current_pose_ (fst (timerCallback e n)) in
  exists p : Path,
    published_paths (snd (timerCallback e n)) = [p] /\
    poses p =
    flat_map (fun l =>
                [set_position_xy 0 0 PoseStamped0;
                 set_position_xy (tf2.vx (tf2.m_origin (base_to_landmark cp l)))
                                 (tf2.vy (tf2.m_origin (base_to_landmark cp l)))
                                 PoseStamped0])
             (landmark_pose_list_ n).
Proof.
  cbv zeta. eexists. split; [apply timerCallback_published_paths |].
  rewrite landmark_loop_poses. reflexivity.
Qed.

(** C2. The landmark point that a tick emits in its relative path, the
    pose at place 2i+1 of the one path the tick publishes for the landmark
    at place i of the registry, has for x and y the translation of
    inverse(ToTransform(R)) * ToTransform(L), R being the current pose
    converted from the state the tick leaves and L the landmark; that is
    (cos yawr*(xl-xr) + sin yawr*(yl-yr), -sin yawr*(xl-xr) + cos yawr*(yl-yr)).
    When the tick leaves the state (0,0,0), a landmark at (3,4) is emitted
    as (3,4); when it leaves (1,1,PI/2), a landmark at (1,2) is emitted as
    (1,0). *)
Theorem relative_landmark_point (e : TimerEvent) (n : NavSim) :
  let n' := fst (timerCallback e n) in
  let r := state_ n' in
  let relative := fun l : Landmark.t =>
    tf2.mul (tf2.inverse (convertToTransform (current_pose_ n')))
            (convertToTransform (convertToPose l)) in
  exists p : Path,
    published_paths (snd (timerCallback e n)) = [p] /\
    (forall (i : nat) (l : Landmark.t),
        nth_error (landmark_pose_list_ n) i = Some l ->
        exists q : PoseStamped,
          nth_error (poses p) (2 * i + 1) = Some q /\
          p_x (position (pose q)) = tf2.vx (tf2.m_origin (relative l)) /\
          p_y (position (pose q)) = tf2.vy (tf2.m_origin (relative l)) /\
          p_x (position (pose q)) =
            cos (State.yaw_ r) * (Landmark.x_ l - State.x_ r)
            + sin (State.yaw_ r) * (Landmark.y_ l - State.y_ r) /\
          p_y (position (pose q)) =
            - sin (State.yaw_ r) * (Landmark.x_ l - State.x_ r)
            + cos (State.yaw_ r) * (Landmark.y_ l - State.y_ r)) /\
    (forall (i : nat) (id : string) (lyaw : R),
        r = State.mk 0 0 0 ->
        nth_error (landmark_pose_list_ n) i = Some (Landmark.mk id 3 4 lyaw) ->
        option_map point_xy (nth_error (poses p) (2 * i + 1)) = Some (3, 4)) /\
    (forall (i : nat) (id : string) (lyaw : R),
        r = State.mk 1 1 (PI / 2) ->
        nth_error (landmark_pose_list_ n) i = Some (Landmark.mk id 1 2 lyaw) ->
        option_map point_xy (nth_error (poses p) (2 * i + 1)) = Some (1, 0)).
Proof.
  cbv zeta. destruct (timerCallback_path_poses e n) as (p & Hp & Hposes).
  cbv zeta in Hposes.
  assert (Hnth : forall (i : nat) (l : Landmark.t),
             nth_error (landmark_pose_list_ n) i = Some l ->
             nth_error (poses p) (2 * i + 1) =
             Some (set_position_xy
                     (tf2.vx (tf2.m_origin
                        (base_to_landmark (current_pose_ (fst (timerCallback e n))) l)))
                     (tf2.vy (tf2.m_origin
                        (base_to_landmark (current_pose_ (fst (timerCallback e n))) l)))
                     PoseStamped0)).
  { intros i l Hl. rewrite Hposes.
    exact (proj2 (pair_segments_nth
                    (fun _ => set_position_xy 0 0 PoseStamped0) _ _ i l Hl)). }
  assert (Horigin : forall l : Landmark.t,
             let o := tf2.m_origin
                        (base_to_landmark (current_pose_ (fst (timerCallback e n))) l) in
             tf2.vx o = fst (in_robot_frame (state_ (fst (timerCallback e n))) l) /\
             tf2.vy o = snd (in_robot_frame (state_ (fst (timerCallback e n))) l)).
  { intro l. rewrite timerCallback_current_pose_. apply base_to_landmark_origin. }
  exists p. split; [exact Hp |]. split; [| split].
  - intros i l Hl. eexists. split; [exact (Hnth i l Hl) |].
    destruct (Horigin l) as [Hx Hy].
    cbn [set_position_xy pose position p_x p_y].
    repeat split; try reflexivity; assumption.
  - intros i id lyaw Hr Hl. rewrite (Hnth i _ Hl). cbn [option_map].
    unfold point_xy. cbn [set_position_xy pose position p_x p_y].
    destruct (Horigin (Landmark.mk id 3 4 lyaw)) as [Hx Hy].
    rewrite Hx, Hy, Hr. unfold in_robot_frame.
    cbn [fst snd State.x_ State.y_ State.yaw_ Landmark.x_ Landmark.y_].
    rewrite cos_0, sin_0. do 2 f_equal; lra.
  - intros i id lyaw Hr Hl. rewrite (Hnth i _ Hl). cbn [option_map].
    unfold point_xy. cbn [set_position_xy pose position p_x p_y].
    destruct (Horigin (Landmark.mk id 1 2 lyaw)) as [Hx Hy].
    rewrite Hx, Hy, Hr. unfold in_robot_frame.
    cbn [fst snd State.x_ State.y_ State.yaw_ Landmark.x_ Landmark.y_].
    rewrite cos_PI2, sin_PI2. do 2 f_equal; lra.
Qed.

Lemma relative_landmark_point_witness :
  (exists p : Path,
      published_paths (snd (timerCallback race_event relative_sim1)) = [p] /\
      option_map point_xy (nth_error (poses p) 1) = Some (3, 4)) /\
  (exists p : Path,
      published_paths (snd (timerCallback race_event relative_sim2)) = [p] /\
      option_map point_xy (nth_error (poses p) 1) = Some (1, 0)).
Proof.
  split.
  - destruct (relative_landmark_point race_event relative_sim1)
      as (p & Hp & _ & H34 & _).
    exists p. split; [exact Hp |].
    apply (H34 0%nat "a"%string 0); [| reflexivity].
    apply (timerCallback_at_rest_state race_event relative_sim1); reflexivity.
  - destruct (relative_landmark_point race_event relative_sim2)
      as (p & Hp & _ & _ & H10).
    exists p. split; [exact Hp |].
    apply (H10 0%nat "a"%string 0); [| reflexivity].
    apply (timerCallback_at_rest_state race_event relative_sim2); reflexivity.
Defined.

(** X14. The transforms of a tick are, in this order, map -> base_link at
    the new state's position with the new state's yaw quaternion, then one
    map -> landmark_id per landmark in registry order, at the landmark's
    position with z = 0 and the quaternion of the landmark's yaw. *)
Theorem timerCallback_broadcasts (e : TimerEvent) (n : NavSim) :
  let n' := fst (timerCallback e n) in
  map transform_of (sent_transforms (snd (timerCallback e n))) =
  ("map"%string, "base_link"%string,
   mkPoint (State.x_ (state_ n')) (State.y_ (state_ n')) 0,
   orientation (pose (convertToPose (state_ n'))))
  :: map (fun l => ("map"%string, Landmark.landmark_id_ l,
                    mkPoint (Landmark.x_ l) (Landmark.y_ l) 0,
                    orientation (pose (convertToPose l))))
         (landmark_pose_list_ n).
Proof.
  cbv zeta. unfold timerCallback at 1. cbn [snd].
  rewrite sent_transforms_app, map_app, landmark_loop_transforms.
  cbn [sent sent_transforms flat_map map app]. rewrite app_nil_r.
  cbn [set_velocity landmark_pose_list_ set_current_pose_ call_simTransferError
       set_state_].
  change (?a :: ?l) with ([a] ++ l) at 1. f_equal.
  unfold transform_of, publishPoseToTransform. cbn. do 4 f_equal. lra.
Qed.

(** X15. A tick publishes exactly one path.  With an empty registry it is
    the default path: no poses, stamp 0 and an empty frame id, because the
    header is only assigned inside the landmark loop.  With at least one
    landmark its header carries the stamp of the current pose and the frame
    base_link. *)
Theorem timerCallback_path_header (e : TimerEvent) (n : NavSim) :
  (landmark_pose_list_ n = [] ->
   published_paths (snd (timerCallback e n))
   = [mkPath (mkHeader 0 EmptyString) []]) /\
  (landmark_pose_list_ n <> [] ->
   exists p : Path,
     published_paths (snd (timerCallback e n)) = [p] /\
     path_header p = mkHeader (now_stamp e) "base_link").
Proof.
  pose proof (timerCallback_published_paths e n) as Hp. cbv zeta in Hp.
  split.
  - intro Hnil. rewrite Hp, Hnil. reflexivity.
  - intro Hne. eexists. split; [exact Hp |].
    rewrite landmark_loop_header.
    destruct (landmark_pose_list_ n); [contradiction | reflexivity].
Qed.

Lemma timerCallback_path_header_witness :
  published_paths (snd (timerCallback race_event race_obj))
  = [mkPath (mkHeader 0 EmptyString) []] /\
  exists p : Path,
    published_paths (snd (timerCallback example_tick1 example_sim)) = [p] /\
    path_header p = mkHeader 0.1 "base_link".
Proof.
  split.
  - apply (proj1 (timerCallback_path_header race_event race_obj)). reflexivity.
  - apply (proj2 (timerCallback_path_header example_tick1 example_sim)).
    discriminate.
Defined.

(** X16. Every pose of the published path has only x and y set: its header
    is the default one, z is 0 and the orientation is the all-zero
    quaternion of a default-constructed message. *)
Theorem timerCallback_path_poses_bare (e : TimerEvent) (n : NavSim)
        (p : Path) (q : PoseStamped)
        (Hp : In p (published_paths (snd (timerCallback e n))))
        (Hq : In q (poses p)) :
  header q = mkHeader 0 EmptyString /\
  p_z (position (pose q)) = 0 /\
  orientation (pose q) = mkQuaternionMsg 0 0 0 0.
Proof.
  rewrite timerCallback_published_paths in Hp. cbv zeta in Hp.
  destruct Hp as [<- | []].
  rewrite landmark_loop_poses in Hq. cbn [path poses Path0 app path_pose] in Hq.
  apply in_flat_map in Hq. destruct Hq as (l & _ & Hq).
  destruct Hq as [<- | [<- | []]]; repeat split.
Qed.

Lemma timerCallback_path_poses_bare_witness :
  exists (p : Path) (q : PoseStamped),
    In p (published_paths (snd (timerCallback example_tick1 example_sim))) /\
    In q (poses p) /\
    orientation (pose q) = mkQuaternionMsg 0 0 0 0.
Proof.
  pose proof (timerCallback_published_paths example_tick1 example_sim) as Hpp.
  cbv zeta in Hpp.
  set (p := path (fold_left _ _ _)) in Hpp.
  assert (Hp : In p (published_paths
                       (snd (timerCallback example_tick1 example_sim))))
    by (rewrite Hpp; now left).
  assert (Hq : In (set_position_xy 0.0 0.0 PoseStamped0) (poses p))
    by (now left).
  exists p, (set_position_xy 0.0 0.0 PoseStamped0).
  split; [exact Hp |]. split; [exact Hq |].
  exact (proj2 (proj2 (timerCallback_path_poses_bare
                         example_tick1 example_sim p _ Hp Hq))).
Defined.

(** ** Pose resets, again *)

Lemma tf2Atan2_range (y x : R) : - PI < tf2.tf2Atan2 y x <= PI.
Proof.
  pose proof PI_RGT_0 as Hpi. pose proof (atan_bound (y / x)) as [Hlo Hhi].
  unfold tf2.tf2Atan2.
  destruct (Rlt_dec 0 x) as [Hx | Hx]; [lra |].
  destruct (Rlt_dec x 0) as [Hx' | Hx'].
  - assert (Hi : / x < 0) by now apply Rinv_lt_0_compat.
    destruct (Rle_dec 0 y) as [Hy | Hy].
    + assert (Hq : y / x <= 0) by (unfold Rdiv; nra).
      assert (Ha : atan (y / x) <= 0).
      { destruct Hq as [Hq | Hq].
        - left. rewrite <- atan_0. now apply atan_increasing.
        - rewrite Hq, atan_0. lra. }
      lra.
    + assert (Hq : 0 < y / x) by (unfold Rdiv; nra).
      assert (Ha : 0 < atan (y / x))
        by (rewrite <- atan_0; now apply atan_increasing).
      lra.
  - destruct (Rlt_dec 0 y); [lra |]. destruct (Rlt_dec y 0); lra.
Qed.

(** X17. For every reset message whose quaternion is not all zero, unit
    or not, the yaw a pose reset installs lies in (-PI, PI].  (At the
    all-zero quaternion the code divides by zero and installs NaN; the
    hypothesis leaves that message out.) *)
Theorem initialpose_yaw_range (msg : PoseWithCovarianceStamped) (n : NavSim)
        (Hq : o_x (orientation (pwc_pose msg)) * o_x (orientation (pwc_pose msg))
              + o_y (orientation (pwc_pose msg)) * o_y (orientation (pwc_pose msg))
              + o_z (orientation (pwc_pose msg)) * o_z (orientation (pwc_pose msg))
              + o_w (orientation (pwc_pose msg)) * o_w (orientation (pwc_pose msg))
              <> 0) :
  - PI < State.yaw_ (state_ (callbackInitialpose msg n)) <= PI.
Proof.
  cbn [callbackInitialpose initialpose_set_yaw state_ set_state_ State.yaw_].
  unfold initialpose_yaw, tf2.getRPY, tf2.getEulerYPR.
  pose proof PI_RGT_0 as Hpi.
  destruct (Rle_dec 1 _).
  - destruct (Rlt_dec _ 0); cbn [snd tf2.e_yaw]; lra.
  - cbn [snd tf2.e_yaw]. apply tf2Atan2_range.
Qed.

Lemma initialpose_yaw_range_witness :
  - PI < State.yaw_ (state_ (callbackInitialpose race_msg race_obj)) <= PI.
Proof.
  apply (initialpose_yaw_range race_msg race_obj).
  cbn [race_msg pwc_pose orientation o_x o_y o_z o_w]. lra.
Defined.

Lemma initialpose_yaw_converted (s : State.t) (h : Header) (cov : list R) :
  initialpose_yaw
    (mkPoseWithCovarianceStamped h (pose (convertToPose s)) cov) =
  tf2.tf2Atan2 (sin (State.yaw_ s)) (cos (State.yaw_ s)).
Proof.
  unfold initialpose_yaw, convertToPose.
  cbn [pwc_pose pose orientation o_x o_y o_z o_w get_yaw State_PoseType].
  rewrite setRPY_yaw. cbn [tf2.qx tf2.qy tf2.qz tf2.qw].
  rewrite setRotation_yaw. unfold tf2.getRPY, tf2.getEulerYPR.
  cbn [tf2.m_el0 tf2.m_el1 tf2.m_el2 tf2.vx tf2.vy tf2.vz].
  rewrite Rabs_R0. destruct (Rle_dec 1 0) as [Hle | _]; [lra |].
  cbn [snd tf2.e_yaw]. now rewrite asin_0, Ropp_0, cos_0, !Rdiv_1_r.
Qed.

(** X18. The tick never wraps yaw, the reset does: the pose converted from
    a state whose yaw is off (-PI, PI] by k whole turns, either way, resets
    the simulator to the same x and y and to the yaw brought back into
    (-PI, PI]. *)
Theorem reset_wraps_yaw (x y yaw : R) (k : nat) (n : NavSim) (h : Header)
        (cov : list R) (Hyaw : - PI < yaw <= PI) :
  let reset := fun s : State.t =>
    state_ (callbackInitialpose
              (mkPoseWithCovarianceStamped h (pose (convertToPose s)) cov) n) in
  reset (State.mk x y (yaw + 2 * INR k * PI)) = State.mk x y yaw /\
  reset (State.mk x y (yaw - 2 * INR k * PI)) = State.mk x y yaw.
Proof.
  cbv zeta. unfold callbackInitialpose, initialpose_set_yaw.
  cbn [state_ set_state_]. rewrite !initialpose_yaw_converted.
  cbn [State.yaw_]. rewrite sin_period, cos_period.
  rewrite <- (sin_period (yaw - 2 * INR k * PI) k).
  rewrite <- (cos_period (yaw - 2 * INR k * PI) k).
  replace (yaw - 2 * INR k * PI + 2 * INR k * PI) with yaw by ring.
  rewrite tf2Atan2_sin_cos by assumption.
  split; reflexivity.
Qed.

Lemma reset_wraps_yaw_witness :
  state_ (callbackInitialpose
            (mkPoseWithCovarianceStamped Header0
               (pose (convertToPose (State.mk 1 2 (0 + 2 * INR 3 * PI)))) [])
            example_sim)
  = State.mk 1 2 0.
Proof.
  assert (Hyaw : - PI < 0 <= PI) by (pose proof PI_RGT_0; lra).
  exact (proj1 (reset_wraps_yaw 1 2 0 3 example_sim Header0 [] Hyaw)).
Defined.

Lemma setRotation_scale_invariant (q : tf2.Quaternion) (k : R) :
  k <> 0 -> tf2.length2 q <> 0 ->
  tf2.setRotation
    (tf2.mkQuaternion (k * tf2.qx q) (k * tf2.qy q) (k * tf2.qz q) (k * tf2.qw q))
  = tf2.setRotation q.
Proof.
  intros Hk Hq. unfold tf2.setRotation, tf2.length2 in *.
  cbn [tf2.qx tf2.qy tf2.qz tf2.qw].
  assert (Hkd : k * tf2.qx q * (k * tf2.qx q) + k * tf2.qy q * (k * tf2.qy q)
                + k * tf2.qz q * (k * tf2.qz q) + k * tf2.qw q * (k * tf2.qw q)
                <> 0).
  { replace (k * tf2.qx q * (k * tf2.qx q) + k * tf2.qy q * (k * tf2.qy q)
             + k * tf2.qz q * (k * tf2.qz q) + k * tf2.qw q * (k * tf2.qw q))
      with (k * k * (tf2.qx q * tf2.qx q + tf2.qy q * tf2.qy q
                     + tf2.qz q * tf2.qz q + tf2.qw q * tf2.qw q)) by ring.
    repeat apply Rmult_integral_contrapositive_currified; assumption. }
  f_equal; f_equal; field; split; assumption.
Qed.

(** X19. The reset does not need a unit quaternion: a message whose
    quaternion is a nonzero multiple of another nonzero quaternion resets
    the simulator to exactly the same object. *)
Theorem callbackInitialpose_quaternion_scale
        (h : Header) (p : Point) (q : QuaternionMsg) (cov : list R) (k : R)
        (n : NavSim)
        (Hk : k <> 0)
        (Hq : o_x q * o_x q + o_y q * o_y q + o_z q * o_z q + o_w q * o_w q <> 0) :
  callbackInitialpose
    (mkPoseWithCovarianceStamped h
       (mkPose p (mkQuaternionMsg (k * o_x q) (k * o_y q) (k * o_z q) (k * o_w q)))
       cov) n
  = callbackInitialpose (mkPoseWithCovarianceStamped h (mkPose p q) cov) n.
Proof.
  unfold callbackInitialpose, initialpose_set_yaw, initialpose_set_y,
    initialpose_set_x, initialpose_yaw.
  cbn [pwc_pose position orientation o_x o_y o_z o_w state_ set_state_
       State.x_ State.y_ State.yaw_].
  pose proof (setRotation_scale_invariant
                (tf2.mkQuaternion (o_x q) (o_y q) (o_z q) (o_w q)) k Hk Hq) as H.
  cbn [tf2.qx tf2.qy tf2.qz tf2.qw] in H. now rewrite H.
Qed.

Lemma callbackInitialpose_quaternion_scale_witness :
  callbackInitialpose
    (mkPoseWithCovarianceStamped Header0
       (mkPose (mkPoint 5 7 0)
               (mkQuaternionMsg (3 * 0) (3 * 0) (3 * 1) (3 * 0))) []) race_obj
  = callbackInitialpose race_msg race_obj.
Proof.
  apply (callbackInitialpose_quaternion_scale Header0 (mkPoint 5 7 0)
           (mkQuaternionMsg 0 0 1 0) [] 3 race_obj);
    cbn [o_x o_y o_z o_w]; lra.
Defined.

(** ** Two resets at once *)

Ltac next_step H :=
  match type of H with
  | run_schedule ?s _ = Some _ =>
      destruct s as [| [| [| [| ?]]] ?];
      cbn [run_schedule step_thread nth_error threads m_ obj sent_log
           set_thread callbackInitialpose_thread fst snd app] in H;
      try discriminate H
  end.

(** X20. Two pose resets on two threads exclude each other: under every
    schedule that lets both run to their end, the mutex ends free and the
    object is what one whole reset followed by the other whole reset
    leaves; no schedule mixes their writes. *)
Theorem resets_are_serialized
        (msg1 msg2 : PoseWithCovarianceStamped) (n : NavSim)
        (sched : list nat) (c : Machine)
        (Hrun : run_schedule sched
                  (mkMachine n None
                     [callbackInitialpose_thread msg1;
                      callbackInitialpose_thread msg2] []) = Some c)
        (Hdone : threads c = [[]; []]) :
  m_ c = None /\
  (obj c = callbackInitialpose msg2 (callbackInitialpose msg1 n) \/
   obj c = callbackInitialpose msg1 (callbackInitialpose msg2 n)).
Proof.
  repeat (next_step Hrun).
  all: try (injection Hrun as <-; cbn [threads] in Hdone; discriminate Hdone).
  all: injection Hrun as <-; cbn [m_ obj]; split; [reflexivity |].
  - left. reflexivity.
  - right. reflexivity.
Qed.

Lemma resets_are_serialized_witness :
  let c := mkMachine (callbackInitialpose race_msg
                        (callbackInitialpose race_msg2 race_obj))
                     None [[]; []] [] in
  run_schedule [1; 1; 1; 1; 1; 0; 0; 0; 0; 0]%nat
    (mkMachine race_obj None
       [callbackInitialpose_thread race_msg;
        callbackInitialpose_thread race_msg2] []) = Some c /\
  m_ c = None /\
  (obj c = callbackInitialpose race_msg2 (callbackInitialpose race_msg race_obj) \/
   obj c = callbackInitialpose race_msg (callbackInitialpose race_msg2 race_obj)).
Proof.
  intro c.
  assert (Hrun : run_schedule [1; 1; 1; 1; 1; 0; 0; 0; 0; 0]%nat
                   (mkMachine race_obj None
                      [callbackInitialpose_thread race_msg;
                       callbackInitialpose_thread race_msg2] []) = Some c)
    by reflexivity.
  split; [exact Hrun |].
  exact (resets_are_serialized race_msg race_msg2 race_obj _ c Hrun eq_refl).
Defined.
